(** * fastapi-template: the authenticated fetcher and the RBAC schema

    A shallow embedding of
    - [app/api/services/api_clients/base_service.py] (module [ApiClient]):
      the generic [BaseService.make_request], and
    - [app/models.py] (module [Models]): the SQLAlchemy declarations of the
      user / role / permission schema,
    with the properties the specification states about them. *)

From Stdlib Require Import ZArith List.
From Stdlib Require Import Strings.Byte Strings.String Strings.Ascii.
From stdpp Require Import base option list strings gmap fin_maps pretty.
Import ListNotations.

Open Scope string_scope.
Open Scope Z_scope.

(** ** Python values shared by both modules *)

(** [bytes]: a sequence of octets. *)
Abbreviation bytes := (list byte).

(** [str]: a text.  A text is represented by its UTF-8 encoding, one
    [ascii] per octet, so that concatenation of texts is [+:+] and
    [b.decode('utf-8')] keeps the octets of [b] when [b] is well formed.
    (Lone surrogates, which a Python [str] may hold but UTF-8 cannot
    encode, are outside this representation.) *)
Abbreviation str := string.

Module Utf8.

Definition between (lo hi : N) (b : byte) : bool :=
  (N.leb lo (Byte.to_N b) && N.leb (Byte.to_N b) hi)%bool.

(** A continuation octet, 10xxxxxx. *)
Definition cont : byte -> bool := between 128 191.

(** Well-formed UTF-8 as the strict codec accepts it: shortest form only,
    no surrogates (U+D800..U+DFFF), nothing above U+10FFFF. *)
Fixpoint well_formed (bs : bytes) : bool :=
  match bs with
  | [] => true
  | b0 :: r0 =>
    if between 0 127 b0 then well_formed r0
    else match r0 with
    | [] => false
    | b1 :: r1 =>
      if between 194 223 b0 then cont b1 && well_formed r1
      else match r1 with
      | [] => false
      | b2 :: r2 =>
        if between 224 224 b0 then between 160 191 b1 && cont b2 && well_formed r2
        else if between 225 236 b0 then cont b1 && cont b2 && well_formed r2
        else if between 237 237 b0 then between 128 159 b1 && cont b2 && well_formed r2
        else if between 238 239 b0 then cont b1 && cont b2 && well_formed r2
        else match r2 with
        | [] => false
        | b3 :: r3 =>
          if between 240 240 b0
          then between 144 191 b1 && cont b2 && cont b3 && well_formed r3
          else if between 241 243 b0
          then cont b1 && cont b2 && cont b3 && well_formed r3
          else if between 244 244 b0
          then between 128 143 b1 && cont b2 && cont b3 && well_formed r3
          else false
        end
      end
    end
  end.

End Utf8.

(** ** app/api/services/api_clients/base_service.py *)

Module ApiClient.

(** An [httpx.Response], as far as [make_request] looks at it. *)
Record Response : Type := mkResponse {
  status_code : Z;
  content : bytes
}.

(** The instances of Python's [Exception] that the code tells apart.
    [HTTPStatusError] carries the response it was raised for;
    [UnicodeDecodeError] the codec and the octets it rejected;
    [OtherException] stands for every other class (httpx.ConnectError,
    httpx.ReadTimeout, json.JSONDecodeError, pydantic.ValidationError, ...),
    by class name and argument.  Signals that derive from [BaseException]
    only (KeyboardInterrupt, SystemExit, task cancellation) are not
    failures of a call and are not modelled. *)
Inductive exception : Type :=
| HTTPStatusError (response : Response)
| UnicodeDecodeError (encoding : str) (object : bytes)
| OtherException (class_name : str) (arg : str).

(** Outcome of a Python expression: a value, or a raised exception. *)
Inductive result (A : Type) : Type :=
| Return (a : A)
| Raise (e : exception).
Arguments Return {A} a.
Arguments Raise {A} e.

(** [b.decode('utf-8')], strict error handling. *)
Definition decode_utf8 (b : bytes) : result str :=
  if Utf8.well_formed b then Return (string_of_list_byte b)
  else Raise (UnicodeDecodeError "utf-8" b).

(** [response.raise_for_status()] of httpx: a response whose status is
    not a success (200..299) raises [HTTPStatusError] holding it. *)
Definition is_success (status : Z) : bool :=
  (200 <=? status) && (status <=? 299).

Definition raise_for_status (response : Response) : result Response :=
  if is_success (status_code response) then Return response
  else Raise (HTTPStatusError response).

(** *** Effects: a trace of what the call does to the outside *)

Inductive level : Type := INFO | ERROR.

(** A computation appends the events it performs to the trace it is
    given, and ends in a value or in a raised exception. *)
Definition IO (E A : Type) : Type := list E -> result A * list E.

#[export] Instance IO_ret {E : Type} : MRet (IO E) :=
  fun A a tr => (Return a, tr).

#[export] Instance IO_bind {E : Type} : MBind (IO E) :=
  fun A B k m tr =>
    match m tr with
    | (Return a, tr') => k a tr'
    | (Raise e, tr') => (Raise e, tr')
    end.

Definition raise {E A : Type} (e : exception) : IO E A := fun tr => (Raise e, tr).

(** A pure expression that may raise. *)
Definition lift {E A : Type} (r : result A) : IO E A := fun tr => (r, tr).

Definition emit {E : Type} (ev : E) : IO E unit := fun tr => (Return tt, (tr ++ [ev])%list).

(** [try: body / except Exception as exc: handler exc].  An exception
    raised by the handler itself leaves the statement. *)
Definition try_except {E A : Type} (body : IO E A) (handler : exception -> IO E A)
  : IO E A :=
  fun tr =>
    match body tr with
    | (Return a, tr') => (Return a, tr')
    | (Raise e, tr') => handler e tr'
    end.

(** [with]: the exit action runs however the body ends. *)
Definition finally {E A : Type} (body : IO E A) (cleanup : IO E unit) : IO E A :=
  fun tr =>
    match body tr with
    | (r, tr') =>
      match cleanup tr' with
      | (Return _, tr'') => (r, tr'')
      | (Raise e, tr'') => (Raise e, tr'')
      end
    end.

Definition run {E A : Type} (m : IO E A) : result A * list E := m [].

(** *** pydantic request models *)

(** A field of a model instance: its declared name, its declared alias
    if any, and its value. *)
Record Field (Value : Type) : Type := mkField {
  field_name : str;
  field_alias : option str;
  field_value : Value
}.
Arguments mkField {Value} _ _ _.
Arguments field_name {Value} _.
Arguments field_alias {Value} _.
Arguments field_value {Value} _.

(** The key a field is dumped under. *)
Definition dump_key {Value : Type} (by_alias : bool) (f : Field Value) : str :=
  if by_alias then default (field_name f) (field_alias f) else field_name f.

(** [model.model_dump(by_alias=...)] of pydantic: a dict built field by
    field in declaration order, a later assignment to a key replacing an
    earlier one. *)
Definition model_dump {Value : Type} (by_alias : bool) (model : list (Field Value))
  : gmap string Value :=
  foldl (fun d f => <[dump_key by_alias f := field_value f]> d) ∅ model.

(** *** The request and the events *)

(** The arguments of [client.get]. *)
Record Request (Value : Type) : Type := mkRequest {
  url : str;
  headers : gmap string str;
  params : gmap string Value;
  timeout : Z
}.
Arguments mkRequest {Value} _ _ _ _.
Arguments url {Value} _.
Arguments headers {Value} _.
Arguments params {Value} _.
Arguments timeout {Value} _.

Inductive event (Value : Type) : Type :=
| ClientOpen
| ClientClose
| Get (request : Request Value)
| Log (lvl : level) (message : str).
Arguments ClientOpen {Value}.
Arguments ClientClose {Value}.
Arguments Get {Value} request.
Arguments Log {Value} lvl message.

Definition is_log {Value : Type} (ev : event Value) : bool :=
  match ev with Log _ _ => true | _ => false end.

Definition is_error_log {Value : Type} (ev : event Value) : bool :=
  match ev with Log ERROR _ => true | _ => false end.

Definition logs {Value : Type} (tr : list (event Value)) : list (event Value) :=
  List.filter is_log tr.

Definition error_logs {Value : Type} (tr : list (event Value)) : list (event Value) :=
  List.filter is_error_log tr.

Definition requests {Value : Type} (tr : list (event Value)) : list (Request Value) :=
  flat_map (fun ev => match ev with Get r => [r] | _ => [] end) tr.

(** The abstract class [BaseService]: what a concrete subclass supplies.
    [parse_response] may raise, and what it returns is an instance of
    [ResponseType] or [None]: the annotation [-> ResponseType] is not
    enforced.  [get_endpoint] is the path the hook returned: a call is
    followed from the point where its URL, headers and parameters are
    ready and the client is to be opened. *)
Record BaseService (JSON ResponseType : Type) : Type := mkService {
  cls_name : str;                                  (* self.__class__.__name__ *)
  get_endpoint : str;
  parse_response : JSON -> result (option ResponseType)
}.
Arguments mkService {JSON ResponseType} _ _ _.
Arguments cls_name {JSON ResponseType} _.
Arguments get_endpoint {JSON ResponseType} _.
Arguments parse_response {JSON ResponseType} _ _.

Section MakeRequest.

Context {Value JSON ResponseType : Type}.

(** What the interpreter and httpx contribute. *)
Variable str_of_params : gmap string Value -> str.    (* str(params) *)
Variable str_of_exception : exception -> str.         (* str(exc) *)
Variable json_loads : bytes -> result JSON.           (* response.json() *)
(** The remote side: what a GET ends in. *)
Variable send : Request Value -> result Response.

Definition client_get (req : Request Value) : IO (event Value) Response :=
  fun tr => (send req, (tr ++ [Get req])%list).

Definition logger_error (message : str) : IO (event Value) unit :=
  emit (Log ERROR message).

Definition logger_info (message : str) : IO (event Value) unit :=
  emit (Log INFO message).

(** [async with httpx.AsyncClient() as client: body] *)
Definition async_with_client {A : Type} (body : IO (event Value) A)
  : IO (event Value) A :=
  emit ClientOpen ;; finally body (emit ClientClose).

Definition status_error_message (u : str) (status : Z) (body : str) : str :=
  "Error response " +:+ pretty status +:+ " while making request to " +:+ u
    +:+ ". Response content: " +:+ body.

Definition request_error_message (u : str) (exc : exception) : str :=
  "An error occurred while making request to " +:+ u +:+ ": "
    +:+ str_of_exception exc.

Definition success_message (cls : str) (p : gmap string Value) : str :=
  cls +:+ " with params " +:+ str_of_params p +:+ " request successful".

Definition parse_error_message (u : str) (p : gmap string Value) : str :=
  "An error occurred while parsing response from " +:+ u +:+ " with params "
    +:+ str_of_params p.

Definition make_request (self : BaseService JSON ResponseType)
    (request_data : list (Field Value)) (access_token base_url : str)
  : IO (event Value) (option ResponseType) :=
  let endpoint := get_endpoint self in
  let url := base_url +:+ endpoint in
  let headers : gmap string str := {[ "Authorization" := "Bearer " +:+ access_token ]} in
  let params := model_dump true request_data in
  async_with_client (
    response ←
      try_except
        (response ← client_get (mkRequest url headers params 15);
         lift (raise_for_status response) ;;
         mret response)
        (fun exc =>
           match exc with
           | HTTPStatusError response =>
             body ← lift (decode_utf8 (content response));
             logger_error (status_error_message url (status_code response) body) ;;
             raise exc
           | _ =>
             logger_error (request_error_message url exc) ;;
             raise exc
           end);
    logger_info (success_message (cls_name self) params) ;;
    response_data ← lift (json_loads (content response));
    try_except
      (lift (parse_response self response_data))
      (fun exc =>
         logger_error (parse_error_message url params) ;;
         raise exc)).

End MakeRequest.

End ApiClient.

(** ** app/models.py *)

Module Models.

(** *** The declarations *)

Inductive sqltype : Type :=
| DateTime (timezone : bool)
| Uuid (as_uuid : bool)
| String_ (length : Z)
| BigInteger
| Boolean
| FromAnnotation.                 (* no type given: taken from [Mapped[...]] *)

(** [ForeignKey("table.column", ondelete=...)]; the dotted target is kept
    as its two halves. *)
Record ForeignKey : Type := mkForeignKey {
  fk_table : str;
  fk_column : str;
  ondelete : option str
}.

(** [mapped_column(...)].  [nullable] is the effective flag: the
    [nullable=] argument where given, NOT NULL for a primary key, and
    otherwise what the annotation says ([Mapped[T]] without [Optional] is
    NOT NULL).  [has_default] records a [default=] or [server_default=]. *)
Record Column : Type := mkColumn {
  col_name : str;
  col_type : sqltype;
  primary_key : bool;
  nullable : bool;
  unique : bool;
  index : bool;
  has_default : bool;
  foreign_key : option ForeignKey
}.

(** [relationship(back_populates=...)]; the target class comes from the
    annotation. *)
Record Relationship : Type := mkRelationship {
  rel_name : str;
  rel_target : str;
  rel_many : bool;                 (* Mapped[list[...]] *)
  back_populates : option str
}.

Record MappedClass : Type := mkClass {
  class_name : str;
  tablename : str;
  own_columns : list Column;
  relationships : list Relationship
}.

Definition plain (name : str) (ty : sqltype) : Column :=
  mkColumn name ty false false false false false None.

Definition pk (name : str) (ty : sqltype) (dflt : bool) : Column :=
  mkColumn name ty true false false false dflt None.

Definition unique_indexed (name : str) (ty : sqltype) : Column :=
  mkColumn name ty false false true true false None.

Definition references (name table column : str) (on_delete : option str) : Column :=
  mkColumn name FromAnnotation false false false false false
    (Some (mkForeignKey table column on_delete)).

(** [class Base(DeclarativeBase)]: the columns every mapped class gets. *)
Definition Base : list Column :=
  [ mkColumn "create_time" (DateTime true) false false false false true None;
    mkColumn "update_time" (DateTime true) false false false false true None ].

Definition User : MappedClass :=
  mkClass "User" "user_account"
    [ pk "user_id" (Uuid false) true;
      unique_indexed "email" (String_ 256);
      plain "hashed_password" (String_ 128) ]
    [ mkRelationship "refresh_tokens" "RefreshToken" true (Some "user") ].

Definition RefreshToken : MappedClass :=
  mkClass "RefreshToken" "refresh_token"
    [ pk "id" BigInteger false;
      unique_indexed "refresh_token" (String_ 512);
      mkColumn "used" Boolean false false false false true None;
      plain "exp" BigInteger;
      references "user_id" "user_account" "user_id" (Some "CASCADE") ]
    [ mkRelationship "user" "User" false (Some "refresh_tokens") ].

Definition Role : MappedClass :=
  mkClass "Role" "role"
    [ pk "role_id" (Uuid false) true;
      unique_indexed "name" (String_ 256);
      plain "description" (String_ 256) ]
    [].

Definition UserRole : MappedClass :=
  mkClass "UserRole" "user_role"
    [ pk "id" BigInteger false;
      references "user_id" "user_account" "user_id" (Some "CASCADE");
      references "role_id" "role" "role_id" (Some "CASCADE") ]
    [ mkRelationship "user" "User" false (Some "roles");
      mkRelationship "role" "Role" false (Some "users") ].

Definition Permission : MappedClass :=
  mkClass "Permission" "permission"
    [ pk "permission_id" (Uuid false) true;
      unique_indexed "name" (String_ 256);
      plain "description" (String_ 256) ]
    [].

Definition RolePermission : MappedClass :=
  mkClass "RolePermission" "role_permission"
    [ pk "id" BigInteger false;
      references "role_id" "role" "role_id" (Some "CASCADE");
      references "permission_id" "permission" "permission_id" (Some "CASCADE") ]
    [ mkRelationship "role" "Role" false (Some "permissions");
      mkRelationship "permission" "Permission" false (Some "roles") ].

Definition AuditLog : MappedClass :=
  mkClass "AuditLog" "audit_log"
    [ pk "log_id" (Uuid false) true;
      references "user_id" "user_account" "user_id" (Some "CASCADE");
      plain "action" (String_ 256);
      plain "timestamp" (DateTime true);
      plain "description" (String_ 256) ]
    [].

(** The classes of the module, in declaration order ([Base.registry]). *)
Definition registry : list MappedClass :=
  [User; RefreshToken; Role; UserRole; Permission; RolePermission; AuditLog].

(** The columns of the table a class maps to. *)
Definition columns (C : MappedClass) : list Column := own_columns C ++ Base.

(** *** Attributes of the mapped classes *)

Definition attributes (C : MappedClass) : list str :=
  map col_name (columns C) ++ map rel_name (relationships C).

Definition has_attribute (C : MappedClass) (name : str) : bool :=
  existsb (String.eqb name) (attributes C).

Definition has_relationship (C : MappedClass) (name : str) : bool :=
  existsb (fun r => String.eqb name (rel_name r)) (relationships C).

Definition find_class (reg : list MappedClass) (name : str) : option MappedClass :=
  find (fun C => String.eqb name (class_name C)) reg.

(** Whether the attribute a relationship names in [back_populates] is a
    relationship of the target class. *)
Definition back_reference_declared (reg : list MappedClass) (r : Relationship) : bool :=
  match back_populates r with
  | None => true
  | Some name =>
    match find_class reg (rel_target r) with
    | Some C => has_relationship C name
    | None => false
    end
  end.

(** *** The tables in a database

    The relational engine that stores the tables is not part of the
    repository.  Its rules for the constraints the declarations use
    (NOT NULL, UNIQUE and PRIMARY KEY, FOREIGN KEY with its ON DELETE
    action) are written here once, for any list of declared classes, and
    read the declarations above. *)

Inductive val : Type :=
| NULL
| Str (s : str)
| Int (z : Z)
| Bool (b : bool).

#[export] Instance val_eq_dec : EqDecision val.
Proof. solve_decision. Defined.

(** A stored row gives every column a value; a database gives every
    table name its rows.  Rows are taken in their stored form, after
    client-side and server-side defaults have been filled in. *)
Definition row : Type := str -> val.
Definition database : Type := str -> list row.

Definition empty_db : database := fun _ => [].

Definition set_rows (t : str) (rows : list row) (db : database) : database :=
  fun t' => if String.eqb t t' then rows else db t'.

Definition set_col (c : str) (v : val) (r : row) : row :=
  fun c' => if String.eqb c c' then v else r c'.

Definition is_null (v : val) : bool :=
  match v with NULL => true | _ => false end.

(** SQL equality of two stored values: NULL equals nothing. *)
Definition same_value (v w : val) : bool :=
  negb (is_null v) && bool_decide (v = w).

Inductive IntegrityError : Type :=
| NotNullViolation (table column : str)
| UniqueViolation (table column : str)
| ForeignKeyViolation (table column : str).

(** Modelled from the spec: the checks the engine makes on one column of a
    row to be inserted (the engine itself is outside the repository):
    "email unique", "token unique", "name unique" (section 3), "every
    join-table row must reference existing parent rows (enforced by
    foreign keys)". *)
Definition check_column (db : database) (t : str) (r : row) (c : Column)
  : option IntegrityError :=
  let v := r (col_name c) in
  if negb (nullable c) && is_null v then Some (NotNullViolation t (col_name c))
  else if (primary_key c || unique c)
          && existsb (fun r' => same_value (r' (col_name c)) v) (db t)
  then Some (UniqueViolation t (col_name c))
  else match foreign_key c with
       | Some fk =>
         if is_null v
            || existsb (fun p => same_value (p (fk_column fk)) v) (db (fk_table fk))
         then None
         else Some (ForeignKeyViolation t (col_name c))
       | None => None
       end.

Fixpoint first_violation (db : database) (t : str) (r : row) (cs : list Column)
  : option IntegrityError :=
  match cs with
  | [] => None
  | c :: cs' =>
    match check_column db t r c with
    | Some err => Some err
    | None => first_violation db t r cs'
    end
  end.

(** Modelled from the spec: INSERT of one row into the table of a class
    (the engine is outside the repository).  A violated constraint fails
    the statement and leaves the database as it was. *)
Definition insert (C : MappedClass) (r : row) (db : database)
  : IntegrityError + database :=
  match first_violation db (tablename C) r (columns C) with
  | Some err => inl err
  | None => inr (set_rows (tablename C) (db (tablename C) ++ [r]) db)
  end.

(** The foreign keys of a schema: child table, child column, target. *)
Definition foreign_keys (reg : list MappedClass) : list (str * str * ForeignKey) :=
  flat_map
    (fun C =>
       flat_map
         (fun c =>
            match foreign_key c with
            | Some fk => [(tablename C, col_name c, fk)]
            | None => []
            end)
         (columns C))
    reg.

Definition referencing (reg : list MappedClass) (t : str)
  : list (str * str * ForeignKey) :=
  List.filter (fun '(_, _, fk) => String.eqb (fk_table fk) t) (foreign_keys reg).

(** A child row whose column [cc] holds the key of one of the rows
    [parents] (their column [pc]). *)
Definition refers_to (cc pc : str) (parents : list row) (child : row) : bool :=
  existsb (fun p => same_value (p pc) (child cc)) parents.

(** Modelled from the spec: DELETE of the rows of table [t] that satisfy
    [doomed] (the engine is outside the repository).  "Cascade delete: a
    database rule where deleting a parent row automatically deletes
    dependent child rows"; a foreign key without an action refuses the
    deletion while a child row refers to a deleted row; SET NULL clears
    the referring column.  [fuel] bounds the depth of the cascade; [None]
    means it was too small. *)
Fixpoint delete (fuel : nat) (reg : list MappedClass) (t : str)
    (doomed : row -> bool) (db : database) : option (IntegrityError + database) :=
  match fuel with
  | O => None
  | S fuel' =>
    let deleted := List.filter doomed (db t) in
    let db1 := set_rows t (List.filter (fun r => negb (doomed r)) (db t)) db in
    fold_left
      (fun acc '(ct, cc, fk) =>
         match acc with
         | Some (inr dba) =>
           let hit := refers_to cc (fk_column fk) deleted in
           match ondelete fk with
           | Some "CASCADE" => delete fuel' reg ct hit dba
           | Some "SET NULL" =>
             Some (inr (set_rows ct
                          (map (fun r => if hit r then set_col cc NULL r else r) (dba ct))
                          dba))
           | _ =>
             if existsb hit (dba ct) then Some (inl (ForeignKeyViolation ct cc))
             else Some (inr dba)
           end
         | _ => acc
         end)
      (referencing reg t)
      (Some (inr db1))
  end.

(** A cascade goes through each table at most once when the foreign keys
    have no cycle, so one unit of fuel per class and one to start are
    enough. *)
Definition delete_from (reg : list MappedClass) (t : str) (doomed : row -> bool)
    (db : database) : option (IntegrityError + database) :=
  delete (S (List.length reg)) reg t doomed db.

(** [DELETE FROM t WHERE column = key]. *)
Definition where_eq (column : str) (key : val) : row -> bool :=
  fun r => same_value (r column) key.

(** Every child row refers to a row of the parent table. *)
Definition fk_holds (db : database) (fk : str * str * ForeignKey) : Prop :=
  let '(ct, cc, target) := fk in
  forall r, In r (db ct) ->
    exists p, In p (db (fk_table target)) /\ same_value (p (fk_column target)) (r cc) = true.

Definition referential_integrity (reg : list MappedClass) (db : database) : Prop :=
  Forall (fk_holds db) (foreign_keys reg).

End Models.

(** ** Sample inputs *)

Module Samples.
Import ApiClient Models.

(** A lookup client whose response type is a number, with the request
    object of the specification's example: field [user_name], alias
    [username]. *)
Definition lookup_service : BaseService str nat :=
  mkService "LookupService" "/v1/lookup"
    (fun j => if String.eqb j "ok" then Return (Some 7%nat)
              else Raise (OtherException "ValidationError" "unexpected body")).

(** A client whose parser gives [None] for the body [null]. *)
Definition nullable_service : BaseService str nat :=
  mkService "NullableService" "/v1/lookup"
    (fun j => if String.eqb j "null" then Return None else Return (Some 0%nat)).

Definition null_response : Response :=
  mkResponse 200 ["n"%byte; "u"%byte; "l"%byte; "l"%byte].

Definition lookup_request : list (Field str) :=
  [ mkField "user_name" (Some "username") "bob" ].

Definition show_params (p : gmap string str) : str :=
  "{" +:+ String.concat ", " (map (fun kv => fst kv +:+ ": " +:+ snd kv) (map_to_list p))
      +:+ "}".

Definition show_exception (e : exception) : str :=
  match e with
  | HTTPStatusError r => "status " +:+ pretty (status_code r)
  | UnicodeDecodeError enc _ => enc +:+ " codec can't decode"
  | OtherException _ arg => arg
  end.

(** A decoder that takes the body as it is when it is text. *)
Definition text_body (b : bytes) : result str :=
  if Utf8.well_formed b then Return (string_of_list_byte b)
  else Raise (OtherException "JSONDecodeError" "not a JSON text").

Definition answers (r : Response) : Request str -> result Response :=
  fun _ => Return r.

(** Three answers of the remote side: a body the parser accepts, a body
    it rejects, and a server error whose body is the single octet FF. *)
Definition ok_response : Response := mkResponse 200 ["o"%byte; "k"%byte].
Definition bad_shape_response : Response := mkResponse 200 ["n"%byte; "o"%byte].
Definition broken_error_response : Response := mkResponse 500 [xff].

(** Further answers: a client error with a text body, a 2xx answer whose
    body is no text, and a remote side that cannot be reached. *)
Definition not_found_response : Response :=
  mkResponse 404 ["g"%byte; "o"%byte; "n"%byte; "e"%byte].
Definition garbled_ok_response : Response := mkResponse 200 [xff].
Definition refuses : Request str -> result Response :=
  fun _ => Raise (OtherException "ConnectError" "connection refused").

(** A transport that rejects the request and quotes the header it was
    given in the text of its fault. *)
Definition quotes_header : Request str -> result Response :=
  fun r =>
    Raise (OtherException "LocalProtocolError"
             ("Illegal header value " +:+ default "" (headers r !! "Authorization"))).

Definition lookup (send : Request str -> result Response)
  : result (option nat) * list (event str) :=
  run (make_request show_params show_exception text_body send
         lookup_service lookup_request "s3cr3t" "https://api.example.com").

(** A row given by the columns it sets; the others are NULL. *)
Definition row_of (l : list (str * val)) : row :=
  fun c =>
    match find (fun kv => String.eqb c (fst kv)) l with
    | Some kv => snd kv
    | None => NULL
    end.

Definition alice : row :=
  row_of [("user_id", Str "u-1"); ("email", Str "alice@example.com");
          ("hashed_password", Str "$2b$12$abc");
          ("create_time", Int 1700000000); ("update_time", Int 1700000000)].

Definition alice_again : row :=
  row_of [("user_id", Str "u-2"); ("email", Str "alice@example.com");
          ("hashed_password", Str "$2b$12$xyz");
          ("create_time", Int 1700000100); ("update_time", Int 1700000100)].

Definition alice_token : row :=
  row_of [("id", Int 1); ("refresh_token", Str "rt-1"); ("used", Bool false);
          ("exp", Int 1800000000); ("user_id", Str "u-1");
          ("create_time", Int 1700000001); ("update_time", Int 1700000001)].

Definition alice_token_again : row :=
  row_of [("id", Int 2); ("refresh_token", Str "rt-1"); ("used", Bool false);
          ("exp", Int 1800000500); ("user_id", Str "u-1");
          ("create_time", Int 1700000002); ("update_time", Int 1700000002)].

Definition admin : row :=
  row_of [("role_id", Str "r-1"); ("name", Str "admin");
          ("description", Str "everything");
          ("create_time", Int 1700000000); ("update_time", Int 1700000000)].

Definition admin_again : row :=
  row_of [("role_id", Str "r-2"); ("name", Str "admin");
          ("description", Str "a second admin");
          ("create_time", Int 1700000003); ("update_time", Int 1700000003)].

Definition can_read : row :=
  row_of [("permission_id", Str "p-1"); ("name", Str "read");
          ("description", Str "read access");
          ("create_time", Int 1700000000); ("update_time", Int 1700000000)].

Definition can_read_again : row :=
  row_of [("permission_id", Str "p-2"); ("name", Str "read");
          ("description", Str "read access, twice");
          ("create_time", Int 1700000004); ("update_time", Int 1700000004)].

(** A row with alice's key and another address, and a user row that has
    no address. *)
Definition alice_twin : row :=
  row_of [("user_id", Str "u-1"); ("email", Str "twin@example.com");
          ("hashed_password", Str "$2b$12$twin");
          ("create_time", Int 1700000005); ("update_time", Int 1700000005)].

Definition no_address : row :=
  row_of [("user_id", Str "u-3"); ("hashed_password", Str "$2b$12$none");
          ("create_time", Int 1700000006); ("update_time", Int 1700000006)].

(** A database with one user, her token, one role and one permission. *)
Definition small_db : database :=
  set_rows "permission" [can_read]
    (set_rows "role" [admin]
       (set_rows "refresh_token" [alice_token]
          (set_rows "user_account" [alice] empty_db))).

End Samples.

(** ** Invariants of a database under the schema *)

Module Invariants.
Import Models.

(** No two rows of a list hold the same (non-NULL) value in column [c]. *)
Fixpoint distinct_on (c : str) (rows : list row) : Prop :=
  match rows with
  | [] => True
  | r :: rest =>
    (forall r', In r' rest -> same_value (r c) (r' c) = false)
    /\ distinct_on c rest
  end.

(** Every primary key and every unique column holds distinct values. *)
Definition keys_unique (reg : list MappedClass) (db : database) : Prop :=
  forall C c, In C reg -> In c (columns C) ->
    (primary_key c || unique c) = true ->
    distinct_on (col_name c) (db (tablename C)).

(** No stored row is NULL in a NOT NULL column. *)
Definition no_nulls (reg : list MappedClass) (db : database) : Prop :=
  forall C c r, In C reg -> In c (columns C) -> nullable c = false ->
    In r (db (tablename C)) -> r (col_name c) <> NULL.

(** [db'] holds, table by table, some of the rows of [db], in their order. *)
Definition shrinks (db' db : database) : Prop :=
  forall t, exists keep, db' t = List.filter keep (db t).

(** The states that INSERT and DELETE statements on the tables of the
    schema lead to from the empty database. *)
Inductive reachable (reg : list MappedClass) : database -> Prop :=
| reach_empty : reachable reg empty_db
| reach_insert (db db' : database) (C : MappedClass) (r : row) :
    reachable reg db -> In C reg -> insert C r db = inr db' ->
    reachable reg db'
| reach_delete (db db' : database) (C : MappedClass) (doomed : row -> bool) :
    reachable reg db -> In C reg ->
    delete_from reg (tablename C) doomed db = Some (inr db') ->
    reachable reg db'.

End Invariants.

(** * Properties of [BaseService.make_request] *)

Module FetcherProperties.
Import ApiClient.

Ltac io_step :=
  cbv beta iota zeta delta
    [run make_request async_with_client finally try_except client_get
     logger_error logger_info emit lift raise mbind mret IO_bind IO_ret app].

Section WithClient.

Context {Value JSON ResponseType : Type}.
Variable str_of_params : gmap string Value -> str.
Variable str_of_exception : exception -> str.
Variable json_loads : bytes -> result JSON.
Variable send : Request Value -> result Response.
Variable self : BaseService JSON ResponseType.
Variable request_data : list (Field Value).
Variables access_token base_url : str.

(** The GET the call prepares. *)
Let req : Request Value :=
  mkRequest (base_url +:+ get_endpoint self)
    {[ "Authorization" := "Bearer " +:+ access_token ]}
    (model_dump true request_data) 15.

Let call : result (option ResponseType) * list (event Value) :=
  run (make_request str_of_params str_of_exception json_loads send
         self request_data access_token base_url).

(** [model_dump]: one assignment per field, the last one to a key wins. *)

Lemma model_dump_snoc (by_alias : bool) (m : list (Field Value))
    (f : Field Value) :
  model_dump by_alias (m ++ [f])
  = <[dump_key by_alias f := field_value f]> (model_dump by_alias m).
Proof. unfold model_dump. by rewrite foldl_app. Qed.

Lemma model_dump_is_Some (by_alias : bool) (m : list (Field Value))
    (k : str) :
  is_Some (model_dump by_alias m !! k) <-> k ∈ (dump_key by_alias <$> m).
Proof.
  induction m as [|f m IH] using rev_ind.
  - unfold model_dump; simpl. rewrite lookup_empty. split.
    + intros [? ?]; discriminate.
    + intros H; inversion H.
  - rewrite model_dump_snoc, fmap_app, elem_of_app. simpl.
    rewrite list_elem_of_singleton.
    destruct (decide (dump_key by_alias f = k)) as [->|Hne].
    + rewrite lookup_insert_eq. split; [auto | eauto].
    + rewrite lookup_insert_ne by done. rewrite IH. split; [auto |].
      intros [?|?]; [done | congruence].
Qed.

Lemma model_dump_absent (by_alias : bool) (m : list (Field Value))
    (k : str) :
  k ∉ (dump_key by_alias <$> m) -> model_dump by_alias m !! k = None.
Proof.
  intros Hk. apply eq_None_not_Some. by rewrite model_dump_is_Some.
Qed.

Lemma model_dump_lookup (by_alias : bool) (m : list (Field Value))
    (f : Field Value) :
  NoDup (dump_key by_alias <$> m) -> f ∈ m ->
  model_dump by_alias m !! dump_key by_alias f = Some (field_value f).
Proof.
  induction m as [|g m IH] using rev_ind; intros Hnd Hin.
  - inversion Hin.
  - rewrite fmap_app in Hnd. apply NoDup_app in Hnd as (Hm & Hdisj & _).
    rewrite model_dump_snoc. apply elem_of_app in Hin as [Hin|Hin].
    + rewrite lookup_insert_ne; [by apply IH|].
      intros Heq. apply (Hdisj (dump_key by_alias f)).
      * apply list_elem_of_fmap. eauto.
      * rewrite <- Heq. simpl. apply list_elem_of_singleton. reflexivity.
    + apply list_elem_of_singleton in Hin as ->. apply lookup_insert_eq.
Qed.

(** Whatever happens, exactly one GET is sent, and it is [req]. *)
Lemma one_request : requests (snd call) = [req].
Proof.
  subst call req. io_step.
  destruct (send _) as [resp|e].
  - unfold raise_for_status.
    destruct (is_success (status_code resp)).
    + destruct (json_loads (content resp)) as [j|e]; [|reflexivity].
      destruct (parse_response self j); reflexivity.
    + destruct (decode_utf8 (content resp)); reflexivity.
  - destruct e as [resp| |]; try reflexivity.
    destruct (decode_utf8 (content resp)); reflexivity.
Qed.

(** The outcome and the trace on each path through the call. *)

Lemma run_transport_fault (e : exception) :
  send req = Raise e ->
  (forall resp, e <> HTTPStatusError resp) ->
  call = (Raise e,
          [ClientOpen; Get req;
           Log ERROR (request_error_message str_of_exception (url req) e);
           ClientClose]).
Proof.
  intros Hsend Hcls. subst call. io_step. fold req. rewrite Hsend.
  destruct e as [resp| |]; [destruct (Hcls resp); reflexivity | reflexivity ..].
Qed.

Lemma run_status_error (resp : Response) :
  send req = Return resp ->
  is_success (status_code resp) = false ->
  call =
    match decode_utf8 (content resp) with
    | Return body =>
      (Raise (HTTPStatusError resp),
       [ClientOpen; Get req;
        Log ERROR (status_error_message (url req) (status_code resp) body);
        ClientClose])
    | Raise e => (Raise e, [ClientOpen; Get req; ClientClose])
    end.
Proof.
  intros Hsend Hstatus. subst call. io_step. fold req. rewrite Hsend.
  unfold raise_for_status. rewrite Hstatus.
  destruct (decode_utf8 (content resp)); reflexivity.
Qed.

Lemma run_success (resp : Response) :
  send req = Return resp ->
  is_success (status_code resp) = true ->
  call =
    let info := Log INFO (success_message str_of_params (cls_name self) (params req)) in
    match json_loads (content resp) with
    | Raise e => (Raise e, [ClientOpen; Get req; info; ClientClose])
    | Return j =>
      match parse_response self j with
      | Return parsed => (Return parsed, [ClientOpen; Get req; info; ClientClose])
      | Raise e =>
        (Raise e,
         [ClientOpen; Get req; info;
          Log ERROR (parse_error_message str_of_params (url req) (params req));
          ClientClose])
      end
    end.
Proof.
  intros Hsend Hstatus. subst call. io_step. fold req. rewrite Hsend.
  unfold raise_for_status. rewrite Hstatus.
  destruct (json_loads (content resp)) as [j|e]; [|reflexivity].
  destruct (parse_response self j); reflexivity.
Qed.

Lemma run_status_error_raised (resp : Response) :
  send req = Raise (HTTPStatusError resp) ->
  call =
    match decode_utf8 (content resp) with
    | Return body =>
      (Raise (HTTPStatusError resp),
       [ClientOpen; Get req;
        Log ERROR (status_error_message (url req) (status_code resp) body);
        ClientClose])
    | Raise e => (Raise e, [ClientOpen; Get req; ClientClose])
    end.
Proof.
  intros Hsend. subst call. io_step. fold req. rewrite Hsend.
  destruct (decode_utf8 (content resp)); reflexivity.
Qed.

(** A status error whose body is text: logged once, then re-raised. *)
Lemma status_error_logged_and_reraised (resp : Response) :
  send req = Return resp ->
  is_success (status_code resp) = false ->
  Utf8.well_formed (content resp) = true ->
  fst call = Raise (HTTPStatusError resp) /\
  error_logs (snd call) =
    [Log ERROR (status_error_message (url req) (status_code resp)
                  (string_of_list_byte (content resp)))].
Proof.
  intros Hsend Hstatus Hwf. rewrite (run_status_error resp Hsend Hstatus).
  unfold decode_utf8. rewrite Hwf. split; reflexivity.
Qed.

(** A transport fault: logged once, then re-raised unchanged. *)
Lemma transport_fault_logged_and_reraised (e : exception) :
  send req = Raise e ->
  (forall resp, e <> HTTPStatusError resp) ->
  fst call = Raise e /\
  error_logs (snd call) =
    [Log ERROR (request_error_message str_of_exception (url req) e)].
Proof.
  intros Hsend Hcls. rewrite (run_transport_fault e Hsend Hcls).
  split; reflexivity.
Qed.

(** Apart from a status error whose body is not UTF-8, every failing
    call has logged before it raises. *)
Lemma failure_logged (e : exception) :
  fst call = Raise e ->
  (forall resp,
      (send req = Return resp /\ is_success (status_code resp) = false)
      \/ send req = Raise (HTTPStatusError resp) ->
      Utf8.well_formed (content resp) = true) ->
  logs (snd call) <> [].
Proof.
  intros Hraise Htext.
  destruct (send req) as [resp|e0] eqn:Hsend.
  - destruct (is_success (status_code resp)) eqn:Hstatus.
    + rewrite (run_success resp Hsend Hstatus). cbv zeta.
      destruct (json_loads (content resp)) as [j|e1]; [|discriminate].
      destruct (parse_response self j); discriminate.
    + rewrite (run_status_error resp Hsend Hstatus).
      unfold decode_utf8. rewrite (Htext resp) by (left; split; reflexivity || assumption).
      discriminate.
  - destruct e0 as [resp|enc obj|cls arg].
    + rewrite (run_status_error_raised resp Hsend).
      unfold decode_utf8. rewrite (Htext resp) by (right; reflexivity).
      discriminate.
    + rewrite (run_transport_fault _ Hsend) by discriminate. discriminate.
    + rewrite (run_transport_fault _ Hsend) by discriminate. discriminate.
Qed.

(** C1.  When the GET is answered with a 2xx response whose body decodes
    to the JSON value [j], the call returns exactly what
    [parse_response] makes of [j]. *)
Theorem make_request_returns_parsed (resp : Response) (j : JSON)
    (parsed : option ResponseType) :
  send req = Return resp ->
  is_success (status_code resp) = true ->
  json_loads (content resp) = Return j ->
  parse_response self j = Return parsed ->
  fst call = Return parsed.
Proof.
  intros Hsend Hstatus Hjson Hparse.
  rewrite (run_success resp Hsend Hstatus). cbv zeta.
  rewrite Hjson, Hparse. reflexivity.
Qed.

(** C2 (the code departs from it).  A response with a status outside 2xx
    whose body is not well-formed UTF-8: the call raises
    [UnicodeDecodeError] from inside the handler, not the
    [HTTPStatusError] that carries status and body, and no error-level
    log call has been made. *)
Theorem status_error_body_not_utf8 (resp : Response) :
  send req = Return resp ->
  is_success (status_code resp) = false ->
  Utf8.well_formed (content resp) = false ->
  fst call = Raise (UnicodeDecodeError "utf-8" (content resp)) /\
  fst call <> Raise (HTTPStatusError resp) /\
  error_logs (snd call) = [].
Proof.
  intros Hsend Hstatus Hwf. rewrite (run_status_error resp Hsend Hstatus).
  unfold decode_utf8. rewrite Hwf. repeat split. discriminate.
Qed.

(** C3.  When [parse_response] raises [e] on the decoded body, the call
    raises the same [e]; exactly one error-level log call precedes it,
    and its message is made of the URL and the parameters only: neither
    [e] nor the way exceptions print enters the trace. *)
Theorem parse_failure_logged_then_raised (resp : Response) (j : JSON)
    (e : exception) :
  send req = Return resp ->
  is_success (status_code resp) = true ->
  json_loads (content resp) = Return j ->
  parse_response self j = Raise e ->
  fst call = Raise e /\
  snd call =
    [ClientOpen; Get req;
     Log INFO (success_message str_of_params (cls_name self) (params req));
     Log ERROR (parse_error_message str_of_params (url req) (params req));
     ClientClose] /\
  error_logs (snd call) =
    [Log ERROR (parse_error_message str_of_params (url req) (params req))] /\
  forall str_of_exception' : exception -> str,
    snd (run (make_request str_of_params str_of_exception' json_loads send
                self request_data access_token base_url))
    = snd call.
Proof.
  intros Hsend Hstatus Hjson Hparse.
  rewrite (run_success resp Hsend Hstatus). cbv zeta.
  rewrite Hjson, Hparse. repeat split.
  intros soe. io_step. fold req. rewrite Hsend.
  unfold raise_for_status. rewrite Hstatus, Hjson, Hparse. reflexivity.
Qed.

(** C4 (the code departs from it).  A response with a status outside 2xx
    whose body is not well-formed UTF-8: the call fails and no log call
    of any level has been made. *)
Theorem failure_without_log (resp : Response) :
  send req = Return resp ->
  is_success (status_code resp) = false ->
  Utf8.well_formed (content resp) = false ->
  (exists e, fst call = Raise e) /\ logs (snd call) = [].
Proof.
  intros Hsend Hstatus Hwf. rewrite (run_status_error resp Hsend Hstatus).
  unfold decode_utf8. rewrite Hwf. split; [eexists|]; reflexivity.
Qed.

(** C5.  The one GET of a call carries [model_dump(by_alias=True)] of the
    request object as its query parameters: a field declared with an
    alias is present under the alias, with the field's value when no
    other field is dumped under the same key, and its field name is not
    a key unless some field is dumped under that name. *)
Theorem query_params_by_alias :
  exists r,
    requests (snd call) = [r] /\
    params r = model_dump true request_data /\
    forall f a, f ∈ request_data -> field_alias f = Some a ->
      is_Some (params r !! a) /\
      (NoDup (dump_key true <$> request_data) ->
       params r !! a = Some (field_value f)) /\
      (field_name f ∉ (dump_key true <$> request_data) ->
       params r !! field_name f = None).
Proof.
  exists req. split; [apply one_request|]. split; [reflexivity|].
  intros f a Hin Halias.
  assert (Hkey : dump_key true f = a) by (unfold dump_key; by rewrite Halias).
  subst req; simpl. repeat split.
  - apply model_dump_is_Some. rewrite <- Hkey. apply list_elem_of_fmap. eauto.
  - intros Hnd. rewrite <- Hkey. by apply model_dump_lookup.
  - apply model_dump_absent.
Qed.

(** C6.  The URL of the one GET of a call is [base_url] followed by the
    endpoint, character for character; with base
    [https://api.example.com] and endpoint [/v1/lookup] it is
    [https://api.example.com/v1/lookup]. *)
Theorem url_is_plain_concatenation :
  exists r,
    requests (snd call) = [r] /\
    url r = base_url +:+ get_endpoint self /\
    (base_url = "https://api.example.com" -> get_endpoint self = "/v1/lookup" ->
     url r = "https://api.example.com/v1/lookup").
Proof.
  exists req. split; [apply one_request|]. split; [reflexivity|].
  intros Hbase Hend. subst req; simpl. rewrite Hbase, Hend. reflexivity.
Qed.

(** C10, as amended.  A call returns [None] only when [parse_response]
    itself returned [None]: a call either raises, or returns exactly the
    value [parse_response] gave for the decoded body of a 2xx response. *)
Theorem make_request_None_only_from_hook :
  ((exists e, fst call = Raise e) \/
   (exists resp j v,
       send req = Return resp /\
       is_success (status_code resp) = true /\
       json_loads (content resp) = Return j /\
       parse_response self j = Return v /\
       fst call = Return v)) /\
  (fst call = Return None ->
   exists resp j,
     send req = Return resp /\
     is_success (status_code resp) = true /\
     json_loads (content resp) = Return j /\
     parse_response self j = Return None).
Proof.
  destruct (send req) as [resp|e0] eqn:Hsend.
  - destruct (is_success (status_code resp)) eqn:Hstatus.
    + rewrite (run_success resp Hsend Hstatus). cbv zeta.
      destruct (json_loads (content resp)) as [j|e1] eqn:Hjson;
        [|split; [left; eexists; reflexivity | discriminate]].
      destruct (parse_response self j) as [v|e2] eqn:Hparse.
      * split.
        -- right. exists resp, j, v. repeat split; assumption || reflexivity.
        -- simpl. intros [= ->]. exists resp, j.
           repeat split; assumption || reflexivity.
      * split; [left; eexists; reflexivity | discriminate].
    + rewrite (run_status_error resp Hsend Hstatus).
      destruct (decode_utf8 (content resp));
        (split; [left; eexists; reflexivity | discriminate]).
  - destruct e0 as [resp|enc obj|cls arg].
    + rewrite (run_status_error_raised resp Hsend).
      destruct (decode_utf8 (content resp));
        (split; [left; eexists; reflexivity | discriminate]).
    + rewrite (run_transport_fault _ Hsend) by discriminate.
      split; [left; eexists; reflexivity | discriminate].
    + rewrite (run_transport_fault _ Hsend) by discriminate.
      split; [left; eexists; reflexivity | discriminate].
Qed.

End WithClient.

(** *** The theorems at the sample client *)

Import Samples.

Lemma make_request_returns_parsed_witness :
  fst (lookup (answers ok_response)) = Return (Some 7%nat).
Proof.
  apply (make_request_returns_parsed show_params show_exception text_body
           (answers ok_response) lookup_service lookup_request
           "s3cr3t" "https://api.example.com" ok_response "ok" (Some 7%nat));
    reflexivity.
Defined.

Lemma status_error_body_not_utf8_witness :
  fst (lookup (answers broken_error_response))
    = Raise (UnicodeDecodeError "utf-8" [xff]) /\
  fst (lookup (answers broken_error_response))
    <> Raise (HTTPStatusError broken_error_response) /\
  error_logs (snd (lookup (answers broken_error_response))) = [].
Proof.
  apply (status_error_body_not_utf8 show_params show_exception text_body
           (answers broken_error_response) lookup_service lookup_request
           "s3cr3t" "https://api.example.com" broken_error_response);
    reflexivity.
Defined.

Lemma parse_failure_logged_then_raised_witness :
  fst (lookup (answers bad_shape_response))
    = Raise (OtherException "ValidationError" "unexpected body") /\
  error_logs (snd (lookup (answers bad_shape_response)))
    = [Log ERROR
         "An error occurred while parsing response from https://api.example.com/v1/lookup with params {username: bob}"].
Proof.
  destruct (parse_failure_logged_then_raised show_params show_exception text_body
              (answers bad_shape_response) lookup_service lookup_request
              "s3cr3t" "https://api.example.com" bad_shape_response "no"
              (OtherException "ValidationError" "unexpected body")
              eq_refl eq_refl eq_refl eq_refl)
    as (Hraise & _ & Hlogs & _).
  split; [exact Hraise | exact Hlogs].
Defined.

Lemma failure_without_log_witness :
  (exists e, fst (lookup (answers broken_error_response)) = Raise e) /\
  logs (snd (lookup (answers broken_error_response))) = [].
Proof.
  apply (failure_without_log show_params show_exception text_body
           (answers broken_error_response) lookup_service lookup_request
           "s3cr3t" "https://api.example.com" broken_error_response);
    reflexivity.
Defined.

Lemma query_params_by_alias_witness :
  exists r,
    requests (snd (lookup (answers ok_response))) = [r] /\
    params r !! "username" = Some "bob" /\
    params r !! "user_name" = None.
Proof.
  destruct (query_params_by_alias show_params show_exception text_body
              (answers ok_response) lookup_service lookup_request
              "s3cr3t" "https://api.example.com")
    as (r & Hsent & _ & Hfields).
  destruct (Hfields (mkField "user_name" (Some "username") "bob") "username")
    as (_ & Hvalue & Hname).
  - apply list_elem_of_here.
  - reflexivity.
  - exists r. split; [exact Hsent|]. split.
    + apply Hvalue. apply NoDup_singleton.
    + apply Hname. simpl. intros Hin.
      apply list_elem_of_singleton in Hin. discriminate Hin.
Defined.

Lemma url_is_plain_concatenation_witness :
  exists r,
    requests (snd (lookup (answers ok_response))) = [r] /\
    url r = "https://api.example.com/v1/lookup".
Proof.
  destruct (url_is_plain_concatenation show_params show_exception text_body
              (answers ok_response) lookup_service lookup_request
              "s3cr3t" "https://api.example.com")
    as (r & Hsent & _ & Hurl).
  exists r. split; [exact Hsent | apply Hurl; reflexivity].
Defined.

(** C10 as it was stated ("no execution returns [None]") fails: a
    parser that gives [None] for the body [null] makes the call return
    [None]. *)
Lemma make_request_returns_None :
  fst (run (make_request show_params show_exception text_body
              (answers null_response) nullable_service lookup_request
              "s3cr3t" "https://api.example.com"))
  = Return None.
Proof. reflexivity. Qed.

Lemma make_request_None_only_from_hook_witness :
  exists resp j,
    answers null_response
      (mkRequest ("https://api.example.com" +:+ get_endpoint nullable_service)
         {[ "Authorization" := "Bearer " +:+ "s3cr3t" ]}
         (model_dump true lookup_request) 15) = Return resp /\
    is_success (status_code resp) = true /\
    text_body (content resp) = Return j /\
    parse_response nullable_service j = Return None.
Proof.
  apply (proj2 (make_request_None_only_from_hook show_params show_exception
                  text_body (answers null_response) nullable_service
                  lookup_request "s3cr3t" "https://api.example.com")).
  reflexivity.
Defined.

End FetcherProperties.

(** * Properties of the schema of [models.py] *)

Module SchemaProperties.
Import Models.

(** *** Insertion *)

Lemma first_violation_None (db : database) (t : str) (r : row) (cs : list Column) :
  first_violation db t r cs = None ->
  forall c, In c cs -> check_column db t r c = None.
Proof.
  induction cs as [|c0 cs IH]; simpl; intros Hnone c Hin; [contradiction|].
  destruct (check_column db t r c0) eqn:Hc0; [discriminate|].
  destruct Hin as [<-|Hin]; [assumption | by apply IH].
Qed.

Lemma insert_inr (C : MappedClass) (r : row) (db db' : database) :
  insert C r db = inr db' ->
  first_violation db (tablename C) r (columns C) = None /\
  db' = set_rows (tablename C) (db (tablename C) ++ [r]) db.
Proof.
  unfold insert. destruct (first_violation _ _ _ _); [discriminate|].
  intros [= <-]. split; reflexivity.
Qed.

Lemma existsb_In {A : Type} (f : A -> bool) (l : list A) (x : A) :
  In x l -> f x = true -> existsb f l = true.
Proof. intros Hin Hf. apply existsb_exists. eauto. Qed.

Lemma same_value_refl (v : val) : v <> NULL -> same_value v v = true.
Proof.
  intros Hv. unfold same_value. rewrite bool_decide_eq_true_2 by reflexivity.
  destruct v; [contradiction | reflexivity ..].
Qed.

Lemma same_value_true (v w : val) : same_value v w = true -> v = w /\ v <> NULL.
Proof.
  unfold same_value. intros H. apply andb_prop in H as [Hnn Heq].
  apply bool_decide_eq_true_1 in Heq. split; [assumption|].
  intros ->. discriminate.
Qed.

(** An accepted row is not NULL in a NOT NULL column. *)
Lemma accepted_not_null (db : database) (t : str) (r : row) (c : Column) :
  check_column db t r c = None -> nullable c = false -> r (col_name c) <> NULL.
Proof.
  unfold check_column. intros Hc Hnn Hnull. rewrite Hnn, Hnull in Hc. discriminate.
Qed.

(** An accepted row differs, in a unique column, from every stored row. *)
Lemma accepted_fresh (db : database) (t : str) (r r0 : row) (c : Column) :
  check_column db t r c = None ->
  (primary_key c || unique c) = true ->
  In r0 (db t) ->
  same_value (r0 (col_name c)) (r (col_name c)) = false.
Proof.
  unfold check_column. intros Hc Huniq Hin.
  destruct (same_value (r0 (col_name c)) (r (col_name c))) eqn:Hsame; [|reflexivity].
  exfalso.
  pose proof (existsb_In (fun r' : str -> val => same_value (r' (col_name c)) (r (col_name c)))
                (db t) r0 Hin Hsame) as Hex.
  rewrite Huniq, Hex in Hc. simpl in Hc.
  destruct (negb (nullable c) && is_null (r (col_name c))); discriminate.
Qed.

(** A row that repeats a stored value in a unique, NOT NULL column is
    refused. *)
Lemma duplicate_rejected (C : MappedClass) (c : Column) (db : database)
    (existing new : row) :
  In c (columns C) ->
  (primary_key c || unique c) = true ->
  nullable c = false ->
  In existing (db (tablename C)) ->
  existing (col_name c) = new (col_name c) ->
  exists err, insert C new db = inl err.
Proof.
  intros Hc Huniq Hnn Hin Heq. unfold insert.
  destruct (first_violation _ _ _ _) as [err|] eqn:Hfv; [eauto|].
  pose proof (first_violation_None _ _ _ _ Hfv c Hc) as Hcheck.
  pose proof (accepted_not_null _ _ _ _ Hcheck Hnn) as Hnull.
  pose proof (accepted_fresh _ _ _ existing _ Hcheck Huniq Hin) as Hfresh.
  rewrite Heq, same_value_refl in Hfresh by assumption. discriminate.
Qed.

(** C8.  A row that repeats the [email] of a stored [User] row is refused
    with an integrity error, and so no row is added; the same holds for
    [RefreshToken.refresh_token], [Role.name] and [Permission.name]. *)
Theorem unique_columns_reject_duplicates (db : database) (existing new : row) :
  (In existing (db "user_account") -> existing "email" = new "email" ->
   exists err, insert User new db = inl err) /\
  (In existing (db "refresh_token") ->
   existing "refresh_token" = new "refresh_token" ->
   exists err, insert RefreshToken new db = inl err) /\
  (In existing (db "role") -> existing "name" = new "name" ->
   exists err, insert Role new db = inl err) /\
  (In existing (db "permission") -> existing "name" = new "name" ->
   exists err, insert Permission new db = inl err).
Proof.
  repeat split; intros Hin Heq.
  - apply (duplicate_rejected User (unique_indexed "email" (String_ 256))
             db existing new); simpl; auto.
  - apply (duplicate_rejected RefreshToken
             (unique_indexed "refresh_token" (String_ 512))
             db existing new); simpl; auto.
  - apply (duplicate_rejected Role (unique_indexed "name" (String_ 256))
             db existing new); simpl; auto.
  - apply (duplicate_rejected Permission (unique_indexed "name" (String_ 256))
             db existing new); simpl; auto.
Qed.

Lemma unique_columns_reject_duplicates_witness :
  (exists err, insert User Samples.alice_again Samples.small_db = inl err) /\
  (exists err, insert RefreshToken Samples.alice_token_again Samples.small_db = inl err) /\
  (exists err, insert Role Samples.admin_again Samples.small_db = inl err) /\
  (exists err, insert Permission Samples.can_read_again Samples.small_db = inl err).
Proof.
  repeat split.
  - apply (proj1 (unique_columns_reject_duplicates Samples.small_db
                    Samples.alice Samples.alice_again));
      [left; reflexivity | reflexivity].
  - apply (proj1 (proj2 (unique_columns_reject_duplicates Samples.small_db
                           Samples.alice_token Samples.alice_token_again)));
      [left; reflexivity | reflexivity].
  - apply (proj1 (proj2 (proj2 (unique_columns_reject_duplicates Samples.small_db
                                  Samples.admin Samples.admin_again))));
      [left; reflexivity | reflexivity].
  - apply (proj2 (proj2 (proj2 (unique_columns_reject_duplicates Samples.small_db
                                  Samples.can_read Samples.can_read_again))));
      [left; reflexivity | reflexivity].
Defined.

(** *** Relationships *)

(** C9.  The relationships of [UserRole] and [RolePermission] name
    [roles], [users], [permissions] and [roles] as their counterparts on
    [User], [Role], [Role] and [Permission]; none of these is declared
    there, as a relationship or as any other attribute. *)
Theorem join_class_back_references_missing :
  map (fun r => (rel_target r, back_populates r)) (relationships UserRole)
    = [("User", Some "roles"); ("Role", Some "users")] /\
  map (fun r => (rel_target r, back_populates r)) (relationships RolePermission)
    = [("Role", Some "permissions"); ("Permission", Some "roles")] /\
  Forall (fun r => back_reference_declared registry r = false)
    (relationships UserRole ++ relationships RolePermission) /\
  has_attribute User "roles" = false /\
  has_attribute Role "users" = false /\
  has_attribute Role "permissions" = false /\
  has_attribute Permission "roles" = false /\
  Forall (fun C => forall r, In r (relationships C) ->
                   back_reference_declared registry r = true)
    [User; RefreshToken].
Proof.
  repeat split; try reflexivity.
  - repeat constructor.
  - repeat constructor; intros r [<-|[]]; reflexivity.
Qed.

(** *** Deletion *)

Lemma same_value_false (v w : val) : v <> NULL -> same_value v w = false -> v <> w.
Proof.
  intros Hv Hfalse ->. rewrite same_value_refl in Hfalse by assumption. discriminate.
Qed.

(** No surviving child refers to a deleted parent. *)
Lemma cascade_removes_dependents (cc pc : str) (gone children : list row)
    (p r : row) :
  In p gone ->
  In r (List.filter (fun r => negb (refers_to cc pc gone r)) children) ->
  same_value (p pc) (r cc) = false.
Proof.
  intros Hp Hr. apply List.filter_In in Hr as [_ Hr].
  destruct (same_value (p pc) (r cc)) eqn:Hsame; [|reflexivity].
  unfold refers_to in Hr.
  rewrite (existsb_In (fun p : str -> val => same_value (p pc) (r cc)) gone p Hp Hsame)
    in Hr.
  discriminate.
Qed.

(** Children that referred to a parent before the cascade refer to a
    surviving parent after it. *)
Lemma cascade_keeps_references (cc pc : str) (doomed : row -> bool)
    (children parents : list row) :
  (forall r, In r children ->
     exists p, In p parents /\ same_value (p pc) (r cc) = true) ->
  forall r,
    In r (List.filter
            (fun r => negb (refers_to cc pc (List.filter doomed parents) r)) children) ->
    exists p, In p (List.filter (fun p => negb (doomed p)) parents)
              /\ same_value (p pc) (r cc) = true.
Proof.
  intros Hrefs r Hr. pose proof Hr as Hr'.
  apply List.filter_In in Hr' as [Hin _].
  destruct (Hrefs r Hin) as (p & Hp & Hsame).
  exists p. split; [|assumption].
  apply List.filter_In. split; [assumption|].
  destruct (doomed p) eqn:Hdoomed; [|reflexivity].
  assert (Hgone : In p (List.filter doomed parents))
    by (apply List.filter_In; split; assumption).
  rewrite (cascade_removes_dependents cc pc _ children p r Hgone Hr) in Hsame.
  discriminate.
Qed.

Lemma filter_keeps_references (cc pc : str) (keep : row -> bool)
    (children parents : list row) :
  (forall r, In r children ->
     exists p, In p parents /\ same_value (p pc) (r cc) = true) ->
  forall r, In r (List.filter keep children) ->
    exists p, In p parents /\ same_value (p pc) (r cc) = true.
Proof.
  intros Hrefs r Hr. apply List.filter_In in Hr as [Hin _]. by apply Hrefs.
Qed.

Lemma foreign_keys_registry :
  foreign_keys registry =
    [ ("refresh_token", "user_id", mkForeignKey "user_account" "user_id" (Some "CASCADE"));
      ("user_role", "user_id", mkForeignKey "user_account" "user_id" (Some "CASCADE"));
      ("user_role", "role_id", mkForeignKey "role" "role_id" (Some "CASCADE"));
      ("role_permission", "role_id", mkForeignKey "role" "role_id" (Some "CASCADE"));
      ("role_permission", "permission_id",
       mkForeignKey "permission" "permission_id" (Some "CASCADE"));
      ("audit_log", "user_id", mkForeignKey "user_account" "user_id" (Some "CASCADE")) ].
Proof. reflexivity. Qed.

(** What deleting users does to each table. *)
Lemma delete_user_tables (doomed : row -> bool) (db : database) :
  let gone := List.filter doomed (db "user_account") in
  let orphan := refers_to "user_id" "user_id" gone in
  exists db',
    delete_from registry "user_account" doomed db = Some (inr db') /\
    db' "user_account" = List.filter (fun r => negb (doomed r)) (db "user_account") /\
    db' "refresh_token" = List.filter (fun r => negb (orphan r)) (db "refresh_token") /\
    db' "user_role" = List.filter (fun r => negb (orphan r)) (db "user_role") /\
    db' "audit_log" = List.filter (fun r => negb (orphan r)) (db "audit_log") /\
    db' "role" = db "role" /\
    db' "permission" = db "permission" /\
    db' "role_permission" = db "role_permission".
Proof. intros gone orphan. eexists. split; [reflexivity|]. repeat split. Qed.

(** What deleting roles does to each table. *)
Lemma delete_role_tables (doomed : row -> bool) (db : database) :
  let gone := List.filter doomed (db "role") in
  let orphan := refers_to "role_id" "role_id" gone in
  exists db',
    delete_from registry "role" doomed db = Some (inr db') /\
    db' "role" = List.filter (fun r => negb (doomed r)) (db "role") /\
    db' "user_role" = List.filter (fun r => negb (orphan r)) (db "user_role") /\
    db' "role_permission"
      = List.filter (fun r => negb (orphan r)) (db "role_permission") /\
    db' "user_account" = db "user_account" /\
    db' "refresh_token" = db "refresh_token" /\
    db' "permission" = db "permission" /\
    db' "audit_log" = db "audit_log".
Proof. intros gone orphan. eexists. split; [reflexivity|]. repeat split. Qed.

Ltac split_integrity H :=
  unfold referential_integrity in *; rewrite foreign_keys_registry in *;
  rewrite !Forall_cons in H;
  destruct H as (Hrt & Hur_user & Hur_role & Hrp_role & Hrp_perm & Hal & _);
  unfold fk_holds in Hrt, Hur_user, Hur_role, Hrp_role, Hrp_perm, Hal;
  simpl in Hrt, Hur_user, Hur_role, Hrp_role, Hrp_perm, Hal;
  rewrite !Forall_cons; unfold fk_holds; simpl.

(** Deleting users keeps every foreign key of the schema satisfied. *)
Lemma delete_user_integrity (doomed : row -> bool) (db db' : database) :
  delete_from registry "user_account" doomed db = Some (inr db') ->
  referential_integrity registry db ->
  referential_integrity registry db'.
Proof.
  intros Hdel Hint.
  destruct (delete_user_tables doomed db)
    as (db0 & Hdb0 & Hua & Hrt' & Hur' & Hal' & Hrole & Hperm & Hrp').
  rewrite Hdel in Hdb0. injection Hdb0 as <-.
  split_integrity Hint.
  rewrite Hua, Hrt', Hur', Hal', Hrole, Hperm, Hrp'.
  repeat split; try apply Forall_nil_2.
  - by apply cascade_keeps_references.
  - by apply cascade_keeps_references.
  - by apply filter_keeps_references.
  - assumption.
  - assumption.
  - by apply cascade_keeps_references.
Qed.

(** Deleting roles keeps every foreign key of the schema satisfied. *)
Lemma delete_role_integrity (doomed : row -> bool) (db db' : database) :
  delete_from registry "role" doomed db = Some (inr db') ->
  referential_integrity registry db ->
  referential_integrity registry db'.
Proof.
  intros Hdel Hint.
  destruct (delete_role_tables doomed db)
    as (db0 & Hdb0 & Hrole & Hur' & Hrp' & Hua & Hrt' & Hperm & Hal').
  rewrite Hdel in Hdb0. injection Hdb0 as <-.
  split_integrity Hint.
  rewrite Hua, Hrt', Hur', Hal', Hrole, Hperm, Hrp'.
  repeat split; try apply Forall_nil_2.
  - assumption.
  - by apply filter_keeps_references.
  - by apply cascade_keeps_references.
  - by apply cascade_keeps_references.
  - by apply filter_keeps_references.
  - assumption.
Qed.

(** A user, then a token of that user, then the user deleted: the token
    is gone with it. *)
Lemma token_deleted_with_user (db db1 db2 : database) (u tok : row) :
  insert User u db = inr db1 ->
  insert RefreshToken tok db1 = inr db2 ->
  tok "user_id" = u "user_id" ->
  exists db3,
    delete_from registry "user_account" (where_eq "user_id" (u "user_id")) db2
      = Some (inr db3) /\
    ~ In u (db3 "user_account") /\
    ~ In tok (db3 "refresh_token") /\
    forall r, In r (db3 "refresh_token") ->
      r "id" <> tok "id" /\ r "user_id" <> u "user_id".
Proof.
  intros Hu Htok Hfk.
  apply insert_inr in Hu as [Hucheck ->]. apply insert_inr in Htok as [Htcheck Hdb2].
  assert (Hukey : u "user_id" <> NULL).
  { apply (accepted_not_null db "user_account" u (pk "user_id" (Uuid false) true));
      [|reflexivity].
    apply (first_violation_None _ _ _ _ Hucheck). left; reflexivity. }
  pose proof (first_violation_None _ _ _ _ Htcheck (pk "id" BigInteger false)
                (or_introl eq_refl)) as Hidcheck.
  assert (Hidkey : tok "id" <> NULL)
    by (apply (accepted_not_null _ _ _ _ Hidcheck); reflexivity).
  assert (Hua2 : db2 "user_account" = (db "user_account" ++ [u])%list)
    by (rewrite Hdb2; reflexivity).
  assert (Hrt2 : db2 "refresh_token" = (db "refresh_token" ++ [tok])%list)
    by (rewrite Hdb2; reflexivity).
  clear Hdb2.
  destruct (delete_user_tables (where_eq "user_id" (u "user_id")) db2)
    as (db3 & Hdel & Hua & Hrt & _).
  rewrite Hua2 in Hua, Hrt. rewrite Hrt2 in Hrt.
  exists db3. split; [exact Hdel|].
  assert (Hgone : In u (List.filter (where_eq "user_id" (u "user_id"))
                          (db "user_account" ++ [u]))).
  { apply List.filter_In. split.
    - apply in_or_app. right. left. reflexivity.
    - unfold where_eq. by apply same_value_refl. }
  assert (Hsurvivor : forall r, In r (db3 "refresh_token") ->
                                r "user_id" <> u "user_id").
  { intros r Hr. rewrite Hrt in Hr.
    pose proof (cascade_removes_dependents _ _ _ _ u r Hgone Hr) as Hfalse.
    apply same_value_false in Hfalse; [congruence | assumption]. }
  split; [|split].
  - rewrite Hua. intros Hin. apply List.filter_In in Hin as [_ Hin].
    unfold where_eq in Hin. rewrite same_value_refl in Hin by assumption.
    discriminate.
  - intros Hin. by apply (Hsurvivor tok Hin).
  - intros r Hr. split; [|by apply Hsurvivor].
    intros Hid. pose proof Hr as Hr'. rewrite Hrt in Hr'.
    apply List.filter_In in Hr' as [Hr' _].
    apply in_app_or in Hr' as [Hold | [<- | []]].
    + pose proof (accepted_fresh _ _ _ r _ Hidcheck eq_refl Hold) as Hfresh.
      simpl in Hfresh. rewrite Hid, same_value_refl in Hfresh by assumption.
      discriminate.
    + by apply (Hsurvivor tok Hr).
Qed.

(** Deleting users: the deleted rows are gone, no token, user-role row or
    audit entry that is left refers to one of them, and the foreign keys
    of the schema still hold. *)
Lemma delete_user_cascades (db : database) (doomed : row -> bool) :
  exists db',
    delete_from registry "user_account" doomed db = Some (inr db') /\
    (forall p, In p (db "user_account") -> doomed p = true ->
       ~ In p (db' "user_account") /\
       forall t r, In t ["refresh_token"; "user_role"; "audit_log"] ->
         In r (db' t) -> same_value (p "user_id") (r "user_id") = false) /\
    (referential_integrity registry db -> referential_integrity registry db').
Proof.
  destruct (delete_user_tables doomed db) as (db' & Hdel & Hua & Hrt & Hur & Hal & _).
  exists db'. split; [exact Hdel|]. split; [|by apply (delete_user_integrity doomed)].
  intros p Hp Hdoomed.
  assert (Hgone : In p (List.filter doomed (db "user_account")))
    by (apply List.filter_In; split; assumption).
  split.
  - rewrite Hua. intros Hin. apply List.filter_In in Hin as [_ Hin].
    rewrite Hdoomed in Hin. discriminate.
  - intros t r [<-|[<-|[<-|[]]]] Hr.
    + rewrite Hrt in Hr. by apply (cascade_removes_dependents _ _ _ _ p r Hgone Hr).
    + rewrite Hur in Hr. by apply (cascade_removes_dependents _ _ _ _ p r Hgone Hr).
    + rewrite Hal in Hr. by apply (cascade_removes_dependents _ _ _ _ p r Hgone Hr).
Qed.

(** Deleting roles: likewise for the user-role and role-permission rows. *)
Lemma delete_role_cascades (db : database) (doomed : row -> bool) :
  exists db',
    delete_from registry "role" doomed db = Some (inr db') /\
    (forall p, In p (db "role") -> doomed p = true ->
       ~ In p (db' "role") /\
       forall t r, In t ["user_role"; "role_permission"] ->
         In r (db' t) -> same_value (p "role_id") (r "role_id") = false) /\
    (referential_integrity registry db -> referential_integrity registry db').
Proof.
  destruct (delete_role_tables doomed db) as (db' & Hdel & Hrole & Hur & Hrp & _).
  exists db'. split; [exact Hdel|]. split; [|by apply (delete_role_integrity doomed)].
  intros p Hp Hdoomed.
  assert (Hgone : In p (List.filter doomed (db "role")))
    by (apply List.filter_In; split; assumption).
  split.
  - rewrite Hrole. intros Hin. apply List.filter_In in Hin as [_ Hin].
    rewrite Hdoomed in Hin. discriminate.
  - intros t r [<-|[<-|[]]] Hr.
    + rewrite Hur in Hr. by apply (cascade_removes_dependents _ _ _ _ p r Hgone Hr).
    + rewrite Hrp in Hr. by apply (cascade_removes_dependents _ _ _ _ p r Hgone Hr).
Qed.

(** C7.  A [User] row inserted, a [RefreshToken] row referring to it
    inserted, the [User] row deleted: the deletion succeeds and the token
    row is not in the resulting state.  In general a deletion from
    [user_account] or from [role] succeeds, leaves no row of a dependent
    table that refers to a deleted row, and, where every child row
    referred to an existing parent before, this is so afterwards. *)
Theorem deleting_parent_removes_dependents :
  (forall (db db1 db2 : database) (u tok : row),
      insert User u db = inr db1 ->
      insert RefreshToken tok db1 = inr db2 ->
      tok "user_id" = u "user_id" ->
      exists db3,
        delete_from registry "user_account" (where_eq "user_id" (u "user_id")) db2
          = Some (inr db3) /\
        ~ In u (db3 "user_account") /\
        ~ In tok (db3 "refresh_token") /\
        forall r, In r (db3 "refresh_token") ->
          r "id" <> tok "id" /\ r "user_id" <> u "user_id") /\
  (forall (db : database) (doomed : row -> bool),
      exists db',
        delete_from registry "user_account" doomed db = Some (inr db') /\
        (forall p, In p (db "user_account") -> doomed p = true ->
           ~ In p (db' "user_account") /\
           forall t r, In t ["refresh_token"; "user_role"; "audit_log"] ->
             In r (db' t) -> same_value (p "user_id") (r "user_id") = false) /\
        (referential_integrity registry db -> referential_integrity registry db')) /\
  (forall (db : database) (doomed : row -> bool),
      exists db',
        delete_from registry "role" doomed db = Some (inr db') /\
        (forall p, In p (db "role") -> doomed p = true ->
           ~ In p (db' "role") /\
           forall t r, In t ["user_role"; "role_permission"] ->
             In r (db' t) -> same_value (p "role_id") (r "role_id") = false) /\
        (referential_integrity registry db -> referential_integrity registry db')).
Proof.
  split; [|split].
  - apply token_deleted_with_user.
  - apply delete_user_cascades.
  - apply delete_role_cascades.
Qed.

Lemma deleting_parent_removes_dependents_witness :
  exists db3,
    delete_from registry "user_account" (where_eq "user_id" (Str "u-1"))
      (set_rows "refresh_token" [Samples.alice_token]
         (set_rows "user_account" [Samples.alice] empty_db))
      = Some (inr db3) /\
    ~ In Samples.alice_token (db3 "refresh_token").
Proof.
  destruct (proj1 deleting_parent_removes_dependents
              empty_db
              (set_rows "user_account" [Samples.alice] empty_db)
              (set_rows "refresh_token" [Samples.alice_token]
                 (set_rows "user_account" [Samples.alice] empty_db))
              Samples.alice Samples.alice_token eq_refl eq_refl eq_refl)
    as (db3 & Hdel & _ & Hgone & _).
  exists db3. split; [exact Hdel | exact Hgone].
Defined.

End SchemaProperties.

(** * Further properties of [BaseService.make_request] *)

Module FetcherExtras.
Import ApiClient FetcherProperties.

Section WithClient.

Context {Value JSON ResponseType : Type}.
Variable str_of_params : gmap string Value -> str.
Variable str_of_exception : exception -> str.
Variable json_loads : bytes -> result JSON.
Variable send : Request Value -> result Response.
Variable self : BaseService JSON ResponseType.
Variable request_data : list (Field Value).
Variables access_token base_url : str.

Let req : Request Value :=
  mkRequest (base_url +:+ get_endpoint self)
    {[ "Authorization" := "Bearer " +:+ access_token ]}
    (model_dump true request_data) 15.

Let call : result (option ResponseType) * list (event Value) :=
  run (make_request str_of_params str_of_exception json_loads send
         self request_data access_token base_url).

Let info : event Value :=
  Log INFO (success_message str_of_params (cls_name self)
              (model_dump true request_data)).

(** The paths of a call, in one statement: the outcome and the log events
    between the GET and the release of the client. *)
Lemma call_paths :
  exists mid,
    snd call = ClientOpen :: Get req :: (mid ++ [ClientClose])%list /\
    ((exists e, send req = Raise e /\ (forall resp, e <> HTTPStatusError resp) /\
        fst call = Raise e /\
        mid = [Log ERROR (request_error_message str_of_exception (url req) e)])
     \/ (exists resp,
           (send req = Raise (HTTPStatusError resp)
            \/ send req = Return resp /\ is_success (status_code resp) = false) /\
           ((Utf8.well_formed (content resp) = true /\
             fst call = Raise (HTTPStatusError resp) /\
             mid = [Log ERROR (status_error_message (url req) (status_code resp)
                                 (string_of_list_byte (content resp)))])
            \/ (Utf8.well_formed (content resp) = false /\
                fst call = Raise (UnicodeDecodeError "utf-8" (content resp)) /\
                mid = [])))
     \/ (exists resp,
           send req = Return resp /\ is_success (status_code resp) = true /\
           ((exists e, json_loads (content resp) = Raise e /\
               fst call = Raise e /\ mid = [info])
            \/ (exists j e, json_loads (content resp) = Return j /\
                  parse_response self j = Raise e /\ fst call = Raise e /\
                  mid = [info;
                         Log ERROR (parse_error_message str_of_params (url req)
                                      (params req))])
            \/ (exists j parsed, json_loads (content resp) = Return j /\
                  parse_response self j = Return parsed /\
                  fst call = Return parsed /\ mid = [info])))).
Proof.
  destruct (send req) as [resp|e0] eqn:Hsend.
  - destruct (is_success (status_code resp)) eqn:Hstatus.
    + subst call.
      rewrite (run_success str_of_params str_of_exception json_loads send self
                 request_data access_token base_url resp Hsend Hstatus).
      cbv zeta. fold req. fold info.
      destruct (json_loads (content resp)) as [j|e1] eqn:Hjson.
      * destruct (parse_response self j) as [parsed|e2] eqn:Hparse.
        -- exists [info]. split; [reflexivity|]. right; right.
           exists resp. repeat split; try assumption. right; right.
           exists j, parsed. repeat split; assumption.
        -- exists [info; Log ERROR (parse_error_message str_of_params (url req)
                                        (params req))].
           split; [reflexivity|]. right; right.
           exists resp. repeat split; try assumption. right; left.
           exists j, e2. repeat split; assumption.
      * exists [info]. split; [reflexivity|]. right; right.
        exists resp. repeat split; try assumption. left.
        exists e1. repeat split. assumption.
    + subst call.
      rewrite (run_status_error str_of_params str_of_exception json_loads send self
                 request_data access_token base_url resp Hsend Hstatus).
      fold req. unfold decode_utf8.
      destruct (Utf8.well_formed (content resp)) eqn:Hwf.
      * exists [Log ERROR (status_error_message (url req) (status_code resp)
                             (string_of_list_byte (content resp)))].
        split; [reflexivity|]. right; left. exists resp.
        split; [right; split; reflexivity || assumption|]. left. repeat split; assumption.
      * exists []. split; [reflexivity|]. right; left. exists resp.
        split; [right; split; reflexivity || assumption|]. right. repeat split; assumption.
  - destruct e0 as [resp|enc obj|cls arg].
    + subst call.
      rewrite (run_status_error_raised str_of_params str_of_exception json_loads send
                 self request_data access_token base_url resp Hsend).
      fold req. unfold decode_utf8.
      destruct (Utf8.well_formed (content resp)) eqn:Hwf.
      * exists [Log ERROR (status_error_message (url req) (status_code resp)
                             (string_of_list_byte (content resp)))].
        split; [reflexivity|]. right; left. exists resp.
        split; [left; reflexivity|]. left. repeat split; assumption.
      * exists []. split; [reflexivity|]. right; left. exists resp.
        split; [left; reflexivity|]. right. repeat split; assumption.
    + subst call.
      rewrite (run_transport_fault str_of_params str_of_exception json_loads send
                 self request_data access_token base_url _ Hsend) by discriminate.
      fold req.
      exists [Log ERROR (request_error_message str_of_exception (url req)
                           (UnicodeDecodeError enc obj))].
      split; [reflexivity|]. left.
      eexists. repeat split. discriminate.
    + subst call.
      rewrite (run_transport_fault str_of_params str_of_exception json_loads send
                 self request_data access_token base_url _ Hsend) by discriminate.
      fold req.
      exists [Log ERROR (request_error_message str_of_exception (url req)
                           (OtherException cls arg))].
      split; [reflexivity|]. left.
      eexists. repeat split. discriminate.
Qed.

(** X1.  A call calls [client.get] at most once (nothing is retried), and
    a call of [client.get] carries one header only,
    [Authorization: Bearer <access_token>], and the timeout 15. *)
Theorem get_called_at_most_once :
  (List.length (requests (snd call)) <= 1)%nat /\
  forall r, In r (requests (snd call)) ->
    headers r !! "Authorization" = Some ("Bearer " +:+ access_token) /\
    (forall k, k <> "Authorization" -> headers r !! k = None) /\
    timeout r = 15.
Proof.
  subst call.
  rewrite (one_request str_of_params str_of_exception json_loads send self
             request_data access_token base_url).
  split; [simpl; constructor|].
  intros r [<-|[]]. simpl.
  split; [apply lookup_singleton_eq|]. split; [|reflexivity].
  intros k Hk. apply lookup_singleton_ne. congruence.
Qed.

(** X2.  A call makes at most two log calls, at most one of them at error
    level.  Once the client has been opened it is released at the end,
    however the call ends; [client.get] is called right after the opening,
    and only log calls lie between the GET and the release. *)
Theorem opened_client_is_released :
  (List.length (logs (snd call)) <= 2)%nat /\
  (List.length (error_logs (snd call)) <= 1)%nat /\
  (In ClientOpen (snd call) ->
   exists mid,
     snd call = ClientOpen :: Get req :: (mid ++ [ClientClose])%list /\
     Forall (fun ev => is_log ev = true) mid).
Proof.
  destruct call_paths as (mid & Htrace & Hpaths). rewrite Htrace.
  assert (Hmid : Forall (fun ev => is_log ev = true) mid /\
                 (List.length (logs (ClientOpen :: Get req :: mid ++ [ClientClose]))
                  <= 2)%nat /\
                 (List.length
                    (error_logs (ClientOpen :: Get req :: mid ++ [ClientClose]))
                  <= 1)%nat).
  { destruct Hpaths
      as [(e & _ & _ & _ & ->)
         |[(resp & _ & [(_ & _ & ->)|(_ & _ & ->)])
          |(resp & _ & _ & [(e & _ & _ & ->)
                           |[(j & e & _ & _ & _ & ->)|(j & parsed & _ & _ & _ & ->)]])]];
      simpl; repeat split; repeat constructor. }
  destruct Hmid as (Hlogs & Hcount & Herrors).
  split; [exact Hcount|]. split; [exact Herrors|].
  intros _. exists mid. split; [reflexivity | exact Hlogs].
Qed.

(** X3.  A transport fault (the GET raises something that is not an
    [HTTPStatusError]) is raised again unchanged, after one log call, at
    error level, whose message holds the URL and [str(exc)]; no success
    line is logged. *)
Theorem transport_fault_path (e : exception) :
  send req = Raise e ->
  (forall resp, e <> HTTPStatusError resp) ->
  fst call = Raise e /\
  logs (snd call) =
    [Log ERROR ("An error occurred while making request to "
                  +:+ (base_url +:+ get_endpoint self) +:+ ": "
                  +:+ str_of_exception e)].
Proof.
  intros Hsend Hcls. subst call.
  rewrite (run_transport_fault str_of_params str_of_exception json_loads send
             self request_data access_token base_url e Hsend Hcls).
  split; reflexivity.
Qed.

(** X4.  A response outside 2xx whose body is well-formed UTF-8 makes the
    call raise the [HTTPStatusError] that holds this response, after one
    log call, at error level, whose message holds the status in decimal,
    the URL and the body as text. *)
Theorem status_error_path (resp : Response) :
  send req = Return resp ->
  is_success (status_code resp) = false ->
  Utf8.well_formed (content resp) = true ->
  fst call = Raise (HTTPStatusError resp) /\
  logs (snd call) =
    [Log ERROR ("Error response " +:+ pretty (status_code resp)
                  +:+ " while making request to "
                  +:+ (base_url +:+ get_endpoint self)
                  +:+ ". Response content: "
                  +:+ string_of_list_byte (content resp))].
Proof.
  intros Hsend Hstatus Hwf. subst call.
  rewrite (run_status_error str_of_params str_of_exception json_loads send
             self request_data access_token base_url resp Hsend Hstatus).
  unfold decode_utf8. rewrite Hwf. split; reflexivity.
Qed.

(** X5.  When the body of a 2xx response cannot be decoded, the decoder's
    exception reaches the caller unchanged; the success line has already
    been logged and no error-level log call is made. *)
Theorem undecodable_body_path (resp : Response) (e : exception) :
  send req = Return resp ->
  is_success (status_code resp) = true ->
  json_loads (content resp) = Raise e ->
  fst call = Raise e /\
  logs (snd call) = [info] /\
  error_logs (snd call) = [].
Proof.
  intros Hsend Hstatus Hjson. subst call.
  rewrite (run_success str_of_params str_of_exception json_loads send
             self request_data access_token base_url resp Hsend Hstatus).
  cbv zeta. rewrite Hjson. repeat split.
Qed.

(** X6.  A call that returns has made exactly one log call, the success
    line at info level, and none at error level. *)
Theorem returned_call_logs (v : option ResponseType) :
  fst call = Return v ->
  logs (snd call) = [info] /\ error_logs (snd call) = [].
Proof.
  intros Hret. destruct call_paths as (mid & Htrace & Hpaths). rewrite Htrace.
  destruct Hpaths
    as [(e & _ & _ & Hout & _)
       |[(resp & _ & [(_ & Hout & _)|(_ & Hout & _)])
        |(resp & _ & _ & [(e & _ & Hout & _)
                         |[(j & e & _ & _ & Hout & _)|(j & parsed & _ & _ & _ & ->)]])]];
    try (rewrite Hout in Hret; discriminate).
  split; reflexivity.
Qed.

(** X7.  A line is logged at info level exactly when the GET was answered
    with a 2xx response, also when the call then fails on the body. *)
Theorem info_line_iff_2xx :
  (exists msg, In (Log INFO msg) (snd call)) <->
  (exists resp, send req = Return resp /\ is_success (status_code resp) = true).
Proof.
  destruct call_paths as (mid & Htrace & Hpaths). rewrite Htrace.
  destruct Hpaths
    as [(e & Hsend & _ & _ & ->)
       |[(resp & Hsend & [(_ & _ & ->)|(_ & _ & ->)])
        |(resp & Hsend & Hstatus & Hmid)]].
  - split.
    + intros (msg & Hin). simpl in Hin.
      destruct Hin as [Hin|[Hin|[Hin|[Hin|[]]]]]; discriminate.
    + intros (resp & Hresp & _). rewrite Hsend in Hresp. discriminate.
  - split.
    + intros (msg & Hin). simpl in Hin.
      destruct Hin as [Hin|[Hin|[Hin|[Hin|[]]]]]; discriminate.
    + intros (resp' & Hresp & Hok).
      destruct Hsend as [Hsend|[Hsend Hstatus]]; rewrite Hsend in Hresp;
        [discriminate | injection Hresp as <-; congruence].
  - split.
    + intros (msg & Hin). simpl in Hin.
      destruct Hin as [Hin|[Hin|[Hin|[]]]]; discriminate.
    + intros (resp' & Hresp & Hok).
      destruct Hsend as [Hsend|[Hsend Hstatus]]; rewrite Hsend in Hresp;
        [discriminate | injection Hresp as <-; congruence].
  - split; [eauto|]. intros _.
    exists (success_message str_of_params (cls_name self)
              (model_dump true request_data)).
    destruct Hmid as [(e & _ & _ & ->)
                     |[(j & e & _ & _ & _ & ->)|(j & parsed & _ & _ & _ & ->)]];
      simpl; auto.
Qed.

(** X10.  Every query parameter comes from a field of the request object,
    and a field declared without an alias is sent under its field name,
    with its value when no other field is dumped under that key. *)
Theorem query_params_from_fields :
  exists r,
    requests (snd call) = [r] /\
    (forall k, is_Some (params r !! k) ->
       exists f, f ∈ request_data /\ dump_key true f = k) /\
    (forall f, f ∈ request_data -> field_alias f = None ->
       is_Some (params r !! field_name f) /\
       (NoDup (dump_key true <$> request_data) ->
        params r !! field_name f = Some (field_value f))).
Proof.
  exists req. split; [apply one_request|]. subst req; simpl. split.
  - intros k Hk. apply model_dump_is_Some in Hk.
    apply list_elem_of_fmap in Hk as (f & -> & Hf). eauto.
  - intros f Hin Halias.
    assert (Hkey : dump_key true f = field_name f)
      by (unfold dump_key; by rewrite Halias).
    split.
    + apply model_dump_is_Some. rewrite <- Hkey. apply list_elem_of_fmap. eauto.
    + intros Hnd. rewrite <- Hkey. by apply model_dump_lookup.
Qed.

(** X9.  Among the calls that have called [client.get] and then fail with
    an exception, those that reach the caller without any log call are
    exactly those whose GET ended in a status error with a body that is not
    well-formed UTF-8; every other such failure is logged first. *)
Theorem silent_failure_after_get (e : exception) :
  fst call = Raise e ->
  requests (snd call) <> [] ->
  (logs (snd call) = [] <->
   exists resp,
     (send req = Raise (HTTPStatusError resp)
      \/ send req = Return resp /\ is_success (status_code resp) = false) /\
     Utf8.well_formed (content resp) = false).
Proof.
  intros Hraise _. destruct call_paths as (mid & Htrace & Hpaths). rewrite Htrace.
  destruct Hpaths
    as [(e0 & Hsend & Hcls & _ & ->)
       |[(resp & Hsend & [(Hwf & _ & ->)|(Hwf & _ & ->)])
        |(resp & Hsend & Hstatus & Hmid)]].
  - split; [discriminate|].
    intros (resp & [Hresp|[Hresp _]] & _); rewrite Hsend in Hresp;
      [injection Hresp as ->; by destruct (Hcls resp) | discriminate].
  - split; [discriminate|].
    intros (resp' & Hresp & Hwf').
    assert (resp' = resp) as ->; [|congruence].
    destruct Hsend as [Hsend|[Hsend _]], Hresp as [Hresp|[Hresp _]];
      rewrite Hsend in Hresp; congruence.
  - split; [eauto | reflexivity].
  - split.
    + destruct Hmid as [(e0 & _ & _ & ->)
                       |[(j & e0 & _ & _ & _ & ->)|(j & parsed & _ & _ & _ & ->)]];
        discriminate.
    + intros (resp' & [Hresp|[Hresp Hbad]] & _); rewrite Hsend in Hresp;
        [discriminate | injection Hresp as <-; congruence].
Qed.

End WithClient.

(** X8.  The access token enters the outcome and the log of a call only
    through the way the GET ends: there is a function of that ending (the
    response, or the exception [client.get] raised), fixed before the
    transport and the token are chosen, that gives the outcome and the log
    calls of every call.  No log line is built from the token itself. *)
Theorem token_only_through_get_outcome {Value JSON ResponseType : Type}
    (str_of_params : gmap string Value -> str)
    (str_of_exception : exception -> str)
    (json_loads : bytes -> result JSON)
    (self : BaseService JSON ResponseType)
    (request_data : list (Field Value))
    (base_url : str) :
  exists F : result Response
             -> result (option ResponseType) * list (event Value),
    forall (send : Request Value -> result Response) (access_token : str),
      let req :=
        mkRequest (base_url +:+ get_endpoint self)
          {[ "Authorization" := "Bearer " +:+ access_token ]}
          (model_dump true request_data) 15 in
      let call :=
        run (make_request str_of_params str_of_exception json_loads send
               self request_data access_token base_url) in
      (fst call, logs (snd call)) = F (send req).
Proof.
  exists (fun ending =>
            let call :=
              run (make_request str_of_params str_of_exception json_loads
                     (fun _ => ending) self request_data "" base_url) in
            (fst call, logs (snd call))).
  intros send access_token req call. subst call. cbv beta zeta.
  destruct (send req) as [resp|e] eqn:Hsend.
  - destruct (is_success (status_code resp)) eqn:Hstatus.
    + rewrite (run_success str_of_params str_of_exception json_loads send self
                 request_data access_token base_url resp Hsend Hstatus).
      rewrite (run_success str_of_params str_of_exception json_loads
                 (fun _ => Return resp) self request_data "" base_url resp
                 eq_refl Hstatus).
      cbv zeta. destruct (json_loads (content resp)) as [j|e]; [|reflexivity].
      destruct (parse_response self j); reflexivity.
    + rewrite (run_status_error str_of_params str_of_exception json_loads send self
                 request_data access_token base_url resp Hsend Hstatus).
      rewrite (run_status_error str_of_params str_of_exception json_loads
                 (fun _ => Return resp) self request_data "" base_url resp
                 eq_refl Hstatus).
      destruct (decode_utf8 (content resp)); reflexivity.
  - destruct e as [resp|enc obj|cls arg].
    + rewrite (run_status_error_raised str_of_params str_of_exception json_loads send
                 self request_data access_token base_url resp Hsend).
      rewrite (run_status_error_raised str_of_params str_of_exception json_loads
                 (fun _ => Raise (HTTPStatusError resp)) self request_data ""
                 base_url resp eq_refl).
      destruct (decode_utf8 (content resp)); reflexivity.
    + rewrite (run_transport_fault str_of_params str_of_exception json_loads send
                 self request_data access_token base_url _ Hsend) by discriminate.
      rewrite (run_transport_fault str_of_params str_of_exception json_loads
                 (fun _ => Raise (UnicodeDecodeError enc obj)) self request_data ""
                 base_url _ eq_refl) by discriminate.
      reflexivity.
    + rewrite (run_transport_fault str_of_params str_of_exception json_loads send
                 self request_data access_token base_url _ Hsend) by discriminate.
      rewrite (run_transport_fault str_of_params str_of_exception json_loads
                 (fun _ => Raise (OtherException cls arg)) self request_data ""
                 base_url _ eq_refl) by discriminate.
      reflexivity.
Qed.

(** *** The theorems at the sample client *)

Import Samples.

Lemma transport_fault_path_witness :
  fst (lookup refuses) = Raise (OtherException "ConnectError" "connection refused") /\
  logs (snd (lookup refuses)) =
    [Log ERROR
       "An error occurred while making request to https://api.example.com/v1/lookup: connection refused"].
Proof.
  apply (transport_fault_path show_params show_exception text_body refuses
           lookup_service lookup_request "s3cr3t" "https://api.example.com"
           (OtherException "ConnectError" "connection refused"));
    [reflexivity | discriminate].
Defined.

Lemma status_error_path_witness :
  fst (lookup (answers not_found_response))
    = Raise (HTTPStatusError not_found_response) /\
  logs (snd (lookup (answers not_found_response))) =
    [Log ERROR
       "Error response 404 while making request to https://api.example.com/v1/lookup. Response content: gone"].
Proof.
  apply (status_error_path show_params show_exception text_body
           (answers not_found_response) lookup_service lookup_request
           "s3cr3t" "https://api.example.com" not_found_response);
    reflexivity.
Defined.

Lemma undecodable_body_path_witness :
  fst (lookup (answers garbled_ok_response))
    = Raise (OtherException "JSONDecodeError" "not a JSON text") /\
  logs (snd (lookup (answers garbled_ok_response)))
    = [Log INFO "LookupService with params {username: bob} request successful"] /\
  error_logs (snd (lookup (answers garbled_ok_response))) = [].
Proof.
  apply (undecodable_body_path show_params show_exception text_body
           (answers garbled_ok_response) lookup_service lookup_request
           "s3cr3t" "https://api.example.com" garbled_ok_response
           (OtherException "JSONDecodeError" "not a JSON text"));
    reflexivity.
Defined.

Lemma returned_call_logs_witness :
  logs (snd (lookup (answers ok_response)))
    = [Log INFO "LookupService with params {username: bob} request successful"] /\
  error_logs (snd (lookup (answers ok_response))) = [].
Proof.
  apply (returned_call_logs show_params show_exception text_body
           (answers ok_response) lookup_service lookup_request
           "s3cr3t" "https://api.example.com" (Some 7%nat)).
  reflexivity.
Defined.

Lemma info_line_iff_2xx_witness :
  exists msg, In (Log INFO msg) (snd (lookup (answers bad_shape_response))).
Proof.
  apply (proj2 (info_line_iff_2xx show_params show_exception text_body
                  (answers bad_shape_response) lookup_service lookup_request
                  "s3cr3t" "https://api.example.com")).
  exists bad_shape_response. split; reflexivity.
Defined.

Lemma silent_failure_after_get_witness :
  logs (snd (lookup refuses)) <> [] /\
  logs (snd (lookup (answers broken_error_response))) = [].
Proof.
  split.
  - intros Hsilent.
    apply (proj1 (silent_failure_after_get show_params show_exception text_body
                    refuses lookup_service lookup_request
                    "s3cr3t" "https://api.example.com"
                    (OtherException "ConnectError" "connection refused") eq_refl
                    ltac:(discriminate)))
      in Hsilent.
    destruct Hsilent as (resp & [Hsend|[Hsend _]] & _); discriminate Hsend.
  - apply (proj2 (silent_failure_after_get show_params show_exception text_body
                    (answers broken_error_response) lookup_service lookup_request
                    "s3cr3t" "https://api.example.com"
                    (UnicodeDecodeError "utf-8" [xff]) eq_refl
                    ltac:(discriminate))).
    exists broken_error_response. split; [right; split; reflexivity | reflexivity].
Defined.

(** The way in that X8 leaves open is real: a transport whose fault quotes
    the header it was given puts the token into the error line. *)
Example token_logged_through_fault_text :
  logs (snd (lookup quotes_header)) =
    [Log ERROR
       "An error occurred while making request to https://api.example.com/v1/lookup: Illegal header value Bearer s3cr3t"].
Proof. reflexivity. Qed.

Lemma get_called_at_most_once_witness :
  exists r,
    In r (requests (snd (lookup (answers ok_response)))) /\
    headers r !! "Authorization" = Some "Bearer s3cr3t" /\
    timeout r = 15.
Proof.
  exists (mkRequest "https://api.example.com/v1/lookup"
            {[ "Authorization" := "Bearer s3cr3t" ]}
            (model_dump true lookup_request) 15).
  assert (Hin : In (mkRequest "https://api.example.com/v1/lookup"
                      {[ "Authorization" := "Bearer s3cr3t" ]}
                      (model_dump true lookup_request) 15)
                   (requests (snd (lookup (answers ok_response)))))
    by (left; reflexivity).
  split; [exact Hin|].
  destruct (proj2 (get_called_at_most_once show_params show_exception text_body
                     (answers ok_response) lookup_service lookup_request
                     "s3cr3t" "https://api.example.com") _ Hin)
    as (Hauth & _ & Htimeout).
  split; [exact Hauth | exact Htimeout].
Defined.

Lemma opened_client_is_released_witness :
  exists mid,
    snd (lookup (answers broken_error_response))
    = ClientOpen
        :: Get (mkRequest "https://api.example.com/v1/lookup"
                  {[ "Authorization" := "Bearer s3cr3t" ]}
                  (model_dump true lookup_request) 15)
        :: (mid ++ [ClientClose])%list /\
    Forall (fun ev => is_log ev = true) mid.
Proof.
  apply (proj2 (proj2 (opened_client_is_released show_params show_exception text_body
                         (answers broken_error_response) lookup_service
                         lookup_request "s3cr3t" "https://api.example.com"))).
  left; reflexivity.
Defined.

Lemma query_params_from_fields_witness :
  exists r,
    requests (snd (run (make_request show_params show_exception text_body
                          (answers ok_response) lookup_service
                          [mkField "user_name" (Some "username") "bob";
                           mkField "page" None "2"]
                          "s3cr3t" "https://api.example.com"))) = [r] /\
    params r !! "page" = Some "2".
Proof.
  destruct (query_params_from_fields show_params show_exception text_body
              (answers ok_response) lookup_service
              [mkField "user_name" (Some "username") "bob"; mkField "page" None "2"]
              "s3cr3t" "https://api.example.com")
    as (r & Hsent & _ & Hfields).
  exists r. split; [exact Hsent|].
  destruct (Hfields (mkField "page" None "2")) as (_ & Hvalue).
  - apply list_elem_of_further, list_elem_of_here.
  - reflexivity.
  - apply Hvalue. simpl. apply NoDup_cons. split.
    + intros Hin. apply list_elem_of_singleton in Hin. discriminate Hin.
    + apply NoDup_singleton.
Defined.

End FetcherExtras.

(** * Further properties of the schema of [models.py] *)

Module SchemaExtras.
Import Models Invariants SchemaProperties.

(** *** What the declarations say *)

Lemma tablename_inj (C C' : MappedClass) :
  In C registry -> In C' registry -> tablename C = tablename C' -> C = C'.
Proof.
  intros HC HC' Heq. simpl in HC, HC'.
  repeat (destruct HC as [<-|HC]; [|]); try contradiction;
    repeat (destruct HC' as [<-|HC']; [|]); try contradiction;
    first [reflexivity | discriminate Heq].
Qed.

Lemma all_columns_not_null (C : MappedClass) (c : Column) :
  In C registry -> In c (columns C) -> nullable c = false.
Proof.
  intros HC Hc. simpl in HC.
  repeat (destruct HC as [<-|HC]; [|]); try contradiction;
    simpl in Hc; repeat (destruct Hc as [<-|Hc]; [reflexivity|]); contradiction.
Qed.

Lemma in_foreign_keys (reg : list MappedClass) (ct cc : str) (fk : ForeignKey) :
  In (ct, cc, fk) (foreign_keys reg) <->
  exists C c, In C reg /\ In c (columns C) /\ tablename C = ct /\
              col_name c = cc /\ foreign_key c = Some fk.
Proof.
  unfold foreign_keys. rewrite in_flat_map. split.
  - intros (C & HC & Hin). apply in_flat_map in Hin as (c & Hc & Hin).
    destruct (foreign_key c) as [fk'|] eqn:Hfk; [|contradiction].
    destruct Hin as [[= <- <- <-]|[]]. exists C, c. repeat split; assumption.
  - intros (C & c & HC & Hc & <- & <- & Hfk). exists C. split; [assumption|].
    apply in_flat_map. exists c. split; [assumption|]. rewrite Hfk. left; reflexivity.
Qed.

(** *** Insertion *)

Lemma insert_rows (C : MappedClass) (r : row) (db db' : database) :
  insert C r db = inr db' ->
  forall t, db' t = if String.eqb (tablename C) t then (db t ++ [r])%list else db t.
Proof.
  intros Hins t. apply insert_inr in Hins as [_ ->]. unfold set_rows.
  destruct (String.eqb (tablename C) t) eqn:Heq; [|reflexivity].
  apply String.eqb_eq in Heq as <-. reflexivity.
Qed.

Lemma insert_grows (C : MappedClass) (r r0 : row) (db db' : database) (t : str) :
  insert C r db = inr db' -> In r0 (db t) -> In r0 (db' t).
Proof.
  intros Hins Hin. rewrite (insert_rows C r db db' Hins).
  destruct (String.eqb (tablename C) t); [apply in_or_app; by left | assumption].
Qed.

(** An accepted row refers, in a NOT NULL foreign-key column, to a stored
    row of the parent table. *)
Lemma accepted_reference (db : database) (t : str) (r : row) (c : Column)
    (fk : ForeignKey) :
  check_column db t r c = None -> nullable c = false -> foreign_key c = Some fk ->
  exists p, In p (db (fk_table fk))
            /\ same_value (p (fk_column fk)) (r (col_name c)) = true.
Proof.
  intros Hc Hnn Hfk.
  pose proof (accepted_not_null _ _ _ _ Hc Hnn) as Hv.
  unfold check_column in Hc. rewrite Hnn, Hfk in Hc.
  destruct (is_null (r (col_name c))) eqn:Hnull.
  { destruct (r (col_name c)); [contradiction | discriminate ..]. }
  simpl in Hc.
  destruct ((primary_key c || unique c) && _); [discriminate|].
  destruct (existsb (fun p : str -> val => same_value (p (fk_column fk)) (r (col_name c)))
              (db (fk_table fk))) eqn:Hex; [|discriminate].
  apply existsb_exists in Hex. exact Hex.
Qed.

(** X13.  A row for [refresh_token], [user_role], [role_permission] or
    [audit_log] whose foreign-key column holds a value that no row of the
    parent table has as its key is refused: each of the six [ForeignKey]
    declarations is enforced on insertion. *)
Theorem dangling_reference_refused (C : MappedClass) (cc : str) (fk : ForeignKey)
    (r : row) (db : database) :
  In C registry ->
  In (tablename C, cc, fk) (foreign_keys registry) ->
  (forall p, In p (db (fk_table fk)) -> same_value (p (fk_column fk)) (r cc) = false) ->
  exists err, insert C r db = inl err.
Proof.
  intros HC Hfk Hnone. unfold insert.
  destruct (first_violation _ _ _ _) as [err|] eqn:Hfv; [eauto|].
  apply in_foreign_keys in Hfk as (C0 & c & HC0 & Hc & Hname & <- & Hdecl).
  apply (tablename_inj C0 C HC0 HC) in Hname as ->.
  pose proof (first_violation_None _ _ _ _ Hfv c Hc) as Hcheck.
  destruct (accepted_reference _ _ _ _ _ Hcheck (all_columns_not_null C c HC Hc) Hdecl)
    as (p & Hp & Hsame).
  rewrite (Hnone p Hp) in Hsame. discriminate.
Qed.

(** X11.  The primary key of each of the seven tables, like each unique
    column, admits no second row with a stored value: such a row is
    refused. *)
Theorem every_key_rejects_duplicates :
  map (fun C => (tablename C,
                 map col_name
                   (List.filter (fun c => primary_key c || unique c) (columns C))))
      registry
  = [ ("user_account", ["user_id"; "email"]);
      ("refresh_token", ["id"; "refresh_token"]);
      ("role", ["role_id"; "name"]);
      ("user_role", ["id"]);
      ("permission", ["permission_id"; "name"]);
      ("role_permission", ["id"]);
      ("audit_log", ["log_id"]) ] /\
  forall (C : MappedClass) (c : Column) (db : database) (existing new : row),
    In C registry -> In c (columns C) ->
    (primary_key c || unique c) = true ->
    In existing (db (tablename C)) ->
    existing (col_name c) = new (col_name c) ->
    exists err, insert C new db = inl err.
Proof.
  split; [reflexivity|].
  intros C c db existing new HC Hc Hkey Hin Heq.
  apply (duplicate_rejected C c db existing new); try assumption.
  by apply (all_columns_not_null C).
Qed.

(** X12.  Every column of every table, the inherited [create_time] and
    [update_time] included, is NOT NULL: a row whose stored form is NULL in
    any of them is refused. *)
Theorem null_refused (C : MappedClass) (c : Column) (r : row) (db : database) :
  In C registry -> In c (columns C) ->
  r (col_name c) = NULL ->
  exists err, insert C r db = inl err.
Proof.
  intros HC Hc Hnull. unfold insert.
  destruct (first_violation _ _ _ _) as [err|] eqn:Hfv; [eauto|].
  pose proof (first_violation_None _ _ _ _ Hfv c Hc) as Hcheck.
  destruct (accepted_not_null _ _ _ _ Hcheck (all_columns_not_null C c HC Hc) Hnull).
Qed.

Lemma distinct_on_snoc (c : str) (rows : list row) (r : row) :
  distinct_on c rows ->
  (forall r', In r' rows -> same_value (r' c) (r c) = false) ->
  distinct_on c (rows ++ [r]).
Proof.
  induction rows as [|r0 rows IH]; simpl; intros Hd Hfresh.
  - split; [intros r' []|exact I].
  - destruct Hd as [Hr0 Hd]. split.
    + intros r' Hr'. apply in_app_or in Hr' as [Hr'|[<-|[]]]; [by apply Hr0|].
      apply Hfresh. by left.
    + apply IH; [assumption|]. intros r' Hr'. apply Hfresh. by right.
Qed.

Lemma distinct_on_filter (c : str) (keep : row -> bool) (rows : list row) :
  distinct_on c rows -> distinct_on c (List.filter keep rows).
Proof.
  induction rows as [|r0 rows IH]; simpl; intros Hd; [exact I|].
  destruct Hd as [Hr0 Hd]. destruct (keep r0); simpl; [split|]; try by apply IH.
  intros r' Hr'. apply List.filter_In in Hr' as [Hr' _]. by apply Hr0.
Qed.

(** Insertion and the three invariants. *)
Lemma insert_invariants (C : MappedClass) (r : row) (db db' : database) :
  In C registry ->
  insert C r db = inr db' ->
  (referential_integrity registry db -> referential_integrity registry db') /\
  (keys_unique registry db -> keys_unique registry db') /\
  (no_nulls registry db -> no_nulls registry db').
Proof.
  intros HC Hins. pose proof (insert_rows C r db db' Hins) as Hrows.
  pose proof Hins as Hfv. apply insert_inr in Hfv as [Hfv _].
  split; [|split].
  - unfold referential_integrity. rewrite !List.Forall_forall.
    intros Hri [[ct cc] fk] Hin. specialize (Hri _ Hin). unfold fk_holds in *.
    intros r0 Hr0. rewrite Hrows in Hr0.
    assert (Hold : In r0 (db ct) ->
                   exists p, In p (db' (fk_table fk))
                             /\ same_value (p (fk_column fk)) (r0 cc) = true).
    { intros Hr. destruct (Hri r0 Hr) as (p & Hp & Hsame).
      exists p. split; [by apply (insert_grows C r p db db')|assumption]. }
    destruct (String.eqb (tablename C) ct) eqn:Heq; [|by apply Hold].
    apply in_app_or in Hr0 as [Hr0|[<-|[]]]; [by apply Hold|].
    apply String.eqb_eq in Heq.
    apply in_foreign_keys in Hin as (C0 & c & HC0 & Hc & Hname & <- & Hdecl).
    rewrite <- Heq in Hname. apply (tablename_inj C0 C HC0 HC) in Hname as ->.
    pose proof (first_violation_None _ _ _ _ Hfv c Hc) as Hcheck.
    destruct (accepted_reference _ _ _ _ _ Hcheck (all_columns_not_null C c HC Hc) Hdecl)
      as (p & Hp & Hsame).
    exists p. split; [by apply (insert_grows C r p db db')|assumption].
  - intros Hku C0 c0 HC0 Hc0 Hkey. rewrite Hrows.
    destruct (String.eqb (tablename C) (tablename C0)) eqn:Heq; [|by apply Hku].
    apply String.eqb_eq in Heq. apply (tablename_inj C C0 HC HC0) in Heq as <-.
    apply distinct_on_snoc; [by apply Hku|].
    intros r' Hr'.
    apply (accepted_fresh db (tablename C) r r' c0); try assumption.
    by apply (first_violation_None _ _ _ _ Hfv).
  - intros Hnn C0 c0 r0 HC0 Hc0 Hdecl Hr0. rewrite Hrows in Hr0.
    destruct (String.eqb (tablename C) (tablename C0)) eqn:Heq;
      [|by apply (Hnn C0 c0 r0)].
    apply in_app_or in Hr0 as [Hr0|[<-|[]]]; [by apply (Hnn C0 c0 r0)|].
    apply String.eqb_eq in Heq. apply (tablename_inj C C0 HC HC0) in Heq as <-.
    apply (accepted_not_null db (tablename C) r c0); [|assumption].
    by apply (first_violation_None _ _ _ _ Hfv).
Qed.

(** *** Deletion *)

(** The state after deleting from a parent table, and after deleting from
    a table that no foreign key points to. *)

Lemma delete_users_result (doomed : row -> bool) (db : database) :
  let orphan := refers_to "user_id" "user_id" (List.filter doomed (db "user_account")) in
  delete_from registry "user_account" doomed db =
  Some (inr
    (set_rows "audit_log" (List.filter (fun r => negb (orphan r)) (db "audit_log"))
    (set_rows "user_role" (List.filter (fun r => negb (orphan r)) (db "user_role"))
    (set_rows "refresh_token"
       (List.filter (fun r => negb (orphan r)) (db "refresh_token"))
    (set_rows "user_account"
       (List.filter (fun r => negb (doomed r)) (db "user_account")) db))))).
Proof. reflexivity. Qed.

Lemma delete_roles_result (doomed : row -> bool) (db : database) :
  let orphan := refers_to "role_id" "role_id" (List.filter doomed (db "role")) in
  delete_from registry "role" doomed db =
  Some (inr
    (set_rows "role_permission"
       (List.filter (fun r => negb (orphan r)) (db "role_permission"))
    (set_rows "user_role" (List.filter (fun r => negb (orphan r)) (db "user_role"))
    (set_rows "role" (List.filter (fun r => negb (doomed r)) (db "role")) db)))).
Proof. reflexivity. Qed.

Lemma delete_permissions_result (doomed : row -> bool) (db : database) :
  let orphan :=
    refers_to "permission_id" "permission_id" (List.filter doomed (db "permission")) in
  delete_from registry "permission" doomed db =
  Some (inr
    (set_rows "role_permission"
       (List.filter (fun r => negb (orphan r)) (db "role_permission"))
    (set_rows "permission"
       (List.filter (fun r => negb (doomed r)) (db "permission")) db))).
Proof. reflexivity. Qed.

Lemma delete_leaf_result (t : str) (doomed : row -> bool) (db : database) :
  referencing registry t = [] ->
  delete_from registry t doomed db =
  Some (inr (set_rows t (List.filter (fun r => negb (doomed r)) (db t)) db)).
Proof.
  intros Hleaf. unfold delete_from. simpl List.length. unfold delete.
  rewrite Hleaf. reflexivity.
Qed.

Lemma filter_all {A : Type} (l : list A) : List.filter (fun _ => true) l = l.
Proof. induction l as [|x l IH]; simpl; [reflexivity | by rewrite IH]. Qed.

Ltac shrinks_by_cases :=
  let t := fresh "t" in
  intros t; unfold set_rows;
  repeat match goal with
         | |- context [String.eqb ?a t] =>
           let E := fresh "E" in
           destruct (String.eqb a t) eqn:E;
           [apply String.eqb_eq in E; subst t; eexists; reflexivity|]
         end;
  exists (fun _ => true); symmetry; apply filter_all.

Lemma shrinks_keys_unique (db' db : database) :
  shrinks db' db -> keys_unique registry db -> keys_unique registry db'.
Proof.
  intros Hsh Hku C c HC Hc Hkey. destruct (Hsh (tablename C)) as [keep ->].
  apply distinct_on_filter. by apply Hku.
Qed.

Lemma shrinks_no_nulls (db' db : database) :
  shrinks db' db -> no_nulls registry db -> no_nulls registry db'.
Proof.
  intros Hsh Hnn C c r HC Hc Hdecl Hr. destruct (Hsh (tablename C)) as [keep Heq].
  rewrite Heq in Hr. apply List.filter_In in Hr as [Hr _]. by apply (Hnn C c r).
Qed.

(** Deleting from a table that no foreign key points to keeps the foreign
    keys satisfied. *)
Lemma delete_leaf_integrity (t : str) (keep : row -> bool) (db : database) :
  referencing registry t = [] ->
  referential_integrity registry db ->
  referential_integrity registry (set_rows t (List.filter keep (db t)) db).
Proof.
  intros Hleaf. unfold referential_integrity. rewrite !List.Forall_forall.
  intros Hri [[ct cc] fk] Hin. specialize (Hri _ Hin). unfold fk_holds in *.
  assert (Hparent : String.eqb t (fk_table fk) = false).
  { destruct (String.eqb t (fk_table fk)) eqn:Heq; [|reflexivity].
    apply String.eqb_eq in Heq.
    assert (Hin' : In (ct, cc, fk) (referencing registry t)).
    { unfold referencing. apply List.filter_In. split; [assumption|].
      apply String.eqb_eq. by symmetry. }
    rewrite Hleaf in Hin'. destruct Hin'. }
  intros r Hr. unfold set_rows in *. rewrite Hparent.
  destruct (String.eqb t ct) eqn:Heq; [|by apply Hri].
  apply String.eqb_eq in Heq as <-. apply List.filter_In in Hr as [Hr _]. by apply Hri.
Qed.

Lemma delete_permission_integrity (doomed : row -> bool) (db db' : database) :
  delete_from registry "permission" doomed db = Some (inr db') ->
  referential_integrity registry db ->
  referential_integrity registry db'.
Proof.
  rewrite delete_permissions_result. cbv zeta. intros [= <-] Hint.
  split_integrity Hint. unfold set_rows; simpl.
  repeat split; try apply Forall_nil_2; try assumption.
  - by apply filter_keeps_references.
  - by apply cascade_keeps_references.
Qed.

(** Deletion and the three invariants. *)
Lemma delete_invariants (C : MappedClass) (doomed : row -> bool)
    (db : database) :
  In C registry ->
  exists db',
    delete_from registry (tablename C) doomed db = Some (inr db') /\
    shrinks db' db /\
    (referential_integrity registry db -> referential_integrity registry db') /\
    (keys_unique registry db -> keys_unique registry db') /\
    (no_nulls registry db -> no_nulls registry db').
Proof.
  intros HC.
  assert (Hcore : exists db',
             delete_from registry (tablename C) doomed db = Some (inr db') /\
             shrinks db' db /\
             (referential_integrity registry db -> referential_integrity registry db')).
  { simpl in HC.
    destruct HC as [<-|[<-|[<-|[<-|[<-|[<-|[<-|[]]]]]]]]; simpl tablename.
    - rewrite delete_users_result. cbv zeta. eexists. split; [reflexivity|].
      split; [shrinks_by_cases|].
      apply (delete_user_integrity doomed). apply delete_users_result.
    - rewrite delete_leaf_result by reflexivity. eexists. split; [reflexivity|].
      split; [shrinks_by_cases | by apply delete_leaf_integrity].
    - rewrite delete_roles_result. cbv zeta. eexists. split; [reflexivity|].
      split; [shrinks_by_cases|].
      apply (delete_role_integrity doomed). apply delete_roles_result.
    - rewrite delete_leaf_result by reflexivity. eexists. split; [reflexivity|].
      split; [shrinks_by_cases | by apply delete_leaf_integrity].
    - rewrite delete_permissions_result. cbv zeta. eexists. split; [reflexivity|].
      split; [shrinks_by_cases|].
      apply (delete_permission_integrity doomed). apply delete_permissions_result.
    - rewrite delete_leaf_result by reflexivity. eexists. split; [reflexivity|].
      split; [shrinks_by_cases | by apply delete_leaf_integrity].
    - rewrite delete_leaf_result by reflexivity. eexists. split; [reflexivity|].
      split; [shrinks_by_cases | by apply delete_leaf_integrity]. }
  destruct Hcore as (db' & Hdel & Hsh & Hri).
  exists db'. repeat split; try assumption.
  - by apply shrinks_keys_unique.
  - by apply shrinks_no_nulls.
Qed.

(** X14.  A deletion from any of the seven tables, by any condition,
    succeeds: every foreign key of the schema cascades, so none refuses
    the deletion, and the cascade ends.  The resulting state holds, table
    by table, a part of the rows there were: nothing is added or changed. *)
Theorem delete_always_succeeds (C : MappedClass) (doomed : row -> bool)
    (db : database) :
  In C registry ->
  exists db',
    delete_from registry (tablename C) doomed db = Some (inr db') /\
    shrinks db' db /\
    forall t r, In r (db' t) -> In r (db t).
Proof.
  intros HC.
  destruct (delete_invariants C doomed db HC) as (db' & Hdel & Hsh & _).
  exists db'. split; [exact Hdel|]. split; [exact Hsh|].
  intros t r Hr. destruct (Hsh t) as [keep Heq]. rewrite Heq in Hr.
  by apply List.filter_In in Hr as [Hr _].
Qed.

Lemma empty_db_invariants :
  referential_integrity registry empty_db /\
  keys_unique registry empty_db /\
  no_nulls registry empty_db.
Proof.
  split; [|split].
  - unfold referential_integrity. apply List.Forall_forall.
    intros [[ct cc] fk] _ r [].
  - intros C c _ _ _. exact I.
  - intros C c r _ _ _ [].
Qed.

(** X15.  In every state that insertions into and deletions from the seven
    tables lead to from the empty database, every child row refers to a
    stored parent row, every key column holds distinct values and no
    column holds NULL. *)
Theorem reachable_invariants (db : database) :
  reachable registry db ->
  referential_integrity registry db /\
  keys_unique registry db /\
  no_nulls registry db.
Proof.
  induction 1 as [|db db' C r _ (Hri & Hku & Hnn) HC Hins
                  |db db' C doomed _ (Hri & Hku & Hnn) HC Hdel].
  - exact empty_db_invariants.
  - destruct (insert_invariants C r db db' HC Hins) as (H1 & H2 & H3). auto.
  - destruct (delete_invariants C doomed db HC) as (db0 & Hdel0 & _ & H1 & H2 & H3).
    rewrite Hdel in Hdel0. injection Hdel0 as <-. auto.
Qed.

(** X16.  Deleting permissions: the deleted rows are gone, no
    role-permission row that is left refers to one of them, and no other
    table is touched. *)
Theorem delete_permission_cascades (db : database) (doomed : row -> bool) :
  exists db',
    delete_from registry "permission" doomed db = Some (inr db') /\
    (forall p, In p (db "permission") -> doomed p = true ->
       ~ In p (db' "permission") /\
       forall r, In r (db' "role_permission") ->
         same_value (p "permission_id") (r "permission_id") = false) /\
    (forall t, t <> "permission" -> t <> "role_permission" -> db' t = db t).
Proof.
  rewrite delete_permissions_result. cbv zeta. eexists. split; [reflexivity|].
  split.
  - intros p Hp Hdoomed.
    assert (Hgone : In p (List.filter doomed (db "permission")))
      by (apply List.filter_In; split; assumption).
    split.
    + intros Hin. apply List.filter_In in Hin as [_ Hin].
      rewrite Hdoomed in Hin. discriminate.
    + intros r Hr.
      by apply (cascade_removes_dependents "permission_id" "permission_id"
                  _ (db "role_permission") p r Hgone).
  - intros t Hp Hrp. unfold set_rows.
    destruct (String.eqb "role_permission" t) eqn:E1;
      [apply String.eqb_eq in E1; congruence|].
    destruct (String.eqb "permission" t) eqn:E2;
      [apply String.eqb_eq in E2; congruence | reflexivity].
Qed.

Ltac untouched_by_cases :=
  unfold set_rows;
  repeat match goal with
         | |- context [String.eqb ?a ?t] =>
           let E := fresh "E" in
           destruct (String.eqb a t) eqn:E;
           [apply String.eqb_eq in E; subst; exfalso; auto 10|]
         end;
  reflexivity.

(** X17.  A cascade stays within the tables that depend on the one deleted
    from.  Deleting users leaves [role], [permission] and [role_permission]
    as they were; deleting roles leaves [user_account], [refresh_token],
    [permission] and [audit_log] as they were; deleting tokens, join rows
    or audit entries leaves every other table as it was, so no user, role
    or permission is ever deleted through a row that refers to it. *)
Theorem cascades_stay_in_their_tables (db db' : database) (doomed : row -> bool) :
  (delete_from registry "user_account" doomed db = Some (inr db') ->
   forall t, ~ In t ["user_account"; "refresh_token"; "user_role"; "audit_log"] ->
     db' t = db t) /\
  (delete_from registry "role" doomed db = Some (inr db') ->
   forall t, ~ In t ["role"; "user_role"; "role_permission"] -> db' t = db t) /\
  (forall C, In C [RefreshToken; UserRole; RolePermission; AuditLog] ->
     delete_from registry (tablename C) doomed db = Some (inr db') ->
     forall t, t <> tablename C -> db' t = db t).
Proof.
  split; [|split].
  - rewrite delete_users_result. cbv zeta. intros [= <-] t Ht. simpl in Ht.
    untouched_by_cases.
  - rewrite delete_roles_result. cbv zeta. intros [= <-] t Ht. simpl in Ht.
    untouched_by_cases.
  - intros C HC. simpl in HC.
    destruct HC as [<-|[<-|[<-|[<-|[]]]]]; simpl tablename;
      rewrite delete_leaf_result by reflexivity; intros [= <-] t Ht;
      untouched_by_cases.
Qed.

(** *** The theorems at the sample rows *)

Import Samples.

Lemma dangling_reference_refused_witness :
  exists err, insert RefreshToken alice_token empty_db = inl err.
Proof.
  apply (dangling_reference_refused RefreshToken "user_id"
           (mkForeignKey "user_account" "user_id" (Some "CASCADE"))
           alice_token empty_db).
  - right; left; reflexivity.
  - left; reflexivity.
  - intros p [].
Defined.

Lemma every_key_rejects_duplicates_witness :
  exists err, insert User alice_twin small_db = inl err.
Proof.
  apply (proj2 every_key_rejects_duplicates User (pk "user_id" (Uuid false) true)
           small_db alice alice_twin).
  - left; reflexivity.
  - left; reflexivity.
  - reflexivity.
  - left; reflexivity.
  - reflexivity.
Defined.

Lemma null_refused_witness :
  exists err, insert User no_address small_db = inl err.
Proof.
  apply (null_refused User (unique_indexed "email" (String_ 256)) no_address small_db).
  - left; reflexivity.
  - right; left; reflexivity.
  - reflexivity.
Defined.

Lemma delete_always_succeeds_witness :
  exists db',
    delete_from registry "refresh_token" (where_eq "id" (Int 1)) small_db
      = Some (inr db') /\
    shrinks db' small_db.
Proof.
  destruct (delete_always_succeeds RefreshToken (where_eq "id" (Int 1)) small_db)
    as (db' & Hdel & Hsh & _).
  - right; left; reflexivity.
  - exists db'. split; [exact Hdel | exact Hsh].
Defined.

Lemma reachable_invariants_witness :
  referential_integrity registry
    (set_rows "refresh_token" [alice_token] (set_rows "user_account" [alice] empty_db)).
Proof.
  apply (reachable_invariants
           (set_rows "refresh_token" [alice_token]
              (set_rows "user_account" [alice] empty_db))).
  apply (reach_insert registry (set_rows "user_account" [alice] empty_db) _
           RefreshToken alice_token).
  - apply (reach_insert registry empty_db _ User alice).
    + apply reach_empty.
    + left; reflexivity.
    + reflexivity.
  - right; left; reflexivity.
  - reflexivity.
Defined.

Lemma delete_permission_cascades_witness :
  exists db',
    delete_from registry "permission" (where_eq "name" (Str "read")) small_db
      = Some (inr db') /\
    ~ In can_read (db' "permission").
Proof.
  destruct (delete_permission_cascades small_db (where_eq "name" (Str "read")))
    as (db' & Hdel & Hgone & _).
  exists db'. split; [exact Hdel|].
  apply (Hgone can_read); [left; reflexivity | reflexivity].
Defined.

Lemma cascades_stay_in_their_tables_witness :
  exists db',
    delete_from registry "user_account" (where_eq "user_id" (Str "u-1")) small_db
      = Some (inr db') /\
    db' "role" = [admin] /\ db' "permission" = [can_read].
Proof.
  destruct (delete_invariants User (where_eq "user_id" (Str "u-1")) small_db)
    as (db' & Hdel & _); [left; reflexivity|].
  exists db'. split; [exact Hdel|].
  pose proof (proj1 (cascades_stay_in_their_tables small_db db'
                       (where_eq "user_id" (Str "u-1"))) Hdel) as Hsame.
  split.
  - rewrite (Hsame "role"); [reflexivity|].
    intros [H|[H|[H|[H|[]]]]]; discriminate H.
  - rewrite (Hsame "permission"); [reflexivity|].
    intros [H|[H|[H|[H|[]]]]]; discriminate H.
Defined.

End SchemaExtras.
